(** * Buffered search-index updates: event handlers, job buffers and the
      search job buffer service

    A shallow embedding of
    - [ElasticsearchPlugin.onVendureBootstrap]
      (packages/elasticsearch-plugin/src/plugin.ts), the three event
      subscriptions that translate domain events into index-service calls;
    - [SearchJobBufferService] (search-job-buffer.service.ts), the
      orchestrator with [onApplicationBootstrap], [getPendingSearchUpdates]
      and [runPendingSearchUpdates];
    - the job queue, the buffer registry and the two reducers, which the two
      files above only import.  Their definitions follow the written
      specification and are marked as such;
    - further files of the repository, embedded from their source: the
      console logger, the generated error results of the shop API, the two
      collection filters, the normalisation of schema type paths and the
      option group dialog of the admin UI. *)

From Stdlib Require Import ZArith Lia.
From stdpp Require Import base option list sorting gmap strings.

Open Scope Z_scope.

(** ** Shared data *)

(** [type ID = string | number]. *)
Inductive ID : Type :=
| IdNum (n : Z)
| IdStr (s : string).

#[global] Instance ID_eq_dec : EqDecision ID.
Proof. solve_decision. Defined.

(** A thrown JavaScript error, identified by its message. *)
Record Error : Type := MkError { message : string }.

(** The outcome of a call that may throw (or of an awaited promise that may
    reject). *)
Inductive Result (A : Type) : Type :=
| Ok (a : A)
| Throw (e : Error).
Arguments Ok {A} a.
Arguments Throw {A} e.

Record Zone : Type := MkZone { zone_id : ID }.

Record Channel : Type := MkChannel {
  channel_id : ID;
  (* [defaultTaxZone] is tested for truthiness in plugin.ts line 248 *)
  defaultTaxZone : option Zone
}.

Record RequestContext : Type := MkRequestContext {
  channel : Channel;
  languageCode : string
}.

#[global] Instance Zone_eq_dec : EqDecision Zone.
Proof. solve_decision. Defined.
#[global] Instance Channel_eq_dec : EqDecision Channel.
Proof. solve_decision. Defined.
#[global] Instance RequestContext_eq_dec : EqDecision RequestContext.
Proof. solve_decision. Defined.

(** ** The Elasticsearch plugin: event subscriptions (plugin.ts) *)

Module ElasticsearchPlugin.

(** The class of an entity, as far as [instanceof Product] and
    [instanceof ProductVariant] can tell. *)
Inductive EntityClass : Type :=
| Product
| ProductVariant
| OtherEntity (className : string).

Record VendureEntity : Type := MkEntity {
  entityClass : EntityClass;
  entity_id : ID
}.

Definition instanceofProduct (e : VendureEntity) : bool :=
  match entityClass e with Product => true | _ => false end.

Definition instanceofProductVariant (e : VendureEntity) : bool :=
  match entityClass e with ProductVariant => true | _ => false end.

Record TaxRate : Type := MkTaxRate {
  taxRate_id : ID;
  zone : Zone
}.

Record CatalogModificationEvent : Type := MkCatalogEvent {
  catalog_ctx : RequestContext;
  entity : VendureEntity
}.

Record CollectionModificationEvent : Type := MkCollectionEvent {
  collection_ctx : RequestContext;
  productVariantIds : list ID
}.

Record TaxRateModificationEvent : Type := MkTaxRateEvent {
  taxRate_ctx : RequestContext;
  taxRate : TaxRate
}.

(** What a handler asks of the two injected services.  A handler makes at
    most one such call and returns its result. *)
Inductive ServiceCall : Type :=
(* elasticsearchIndexService.updateProductOrVariant(ctx, entity).start() *)
| UpdateProductOrVariantStart (ctx : RequestContext) (e : VendureEntity)
(* elasticsearchIndexService.updateVariantsById(ctx, ids).start() *)
| UpdateVariantsByIdStart (ctx : RequestContext) (ids : list ID)
(* elasticsearchService.reindex(ctx) *)
| Reindex (ctx : RequestContext).

Section Handlers.
(** [idsAreEqual] is imported from the core package. *)
Variable idsAreEqual : ID -> ID -> bool.

(* plugin.ts lines 236-240 *)
Definition catalogModificationHandler
    (event : CatalogModificationEvent) : option ServiceCall :=
  if instanceofProduct (entity event) || instanceofProductVariant (entity event)
  then Some (UpdateProductOrVariantStart (catalog_ctx event) (entity event))
  else None.

(* plugin.ts lines 241-245 *)
Definition collectionModificationHandler
    (event : CollectionModificationEvent) : option ServiceCall :=
  Some (UpdateVariantsByIdStart (collection_ctx event) (productVariantIds event)).

(* plugin.ts lines 246-251 *)
Definition taxRateModificationHandler
    (event : TaxRateModificationEvent) : option ServiceCall :=
  let defaultTaxZone := defaultTaxZone (channel (taxRate_ctx event)) in
  if match defaultTaxZone with
     | Some z => idsAreEqual (zone_id z) (zone_id (zone (taxRate event)))
     | None => false
     end
  then Some (Reindex (taxRate_ctx event))
  else None.

(** The tax rate of [event] lies in the default tax zone of the event's
    channel, ids being compared by [idsAreEqual]. *)
Definition inDefaultTaxZone (event : TaxRateModificationEvent) : Prop :=
  exists z, defaultTaxZone (channel (taxRate_ctx event)) = Some z /\
            idsAreEqual (zone_id z) (zone_id (zone (taxRate event))) = true.

(** The subscriptions held by the event bus after bootstrap. *)
Record Subscriptions : Type := MkSubscriptions {
  onCatalogModification : CatalogModificationEvent -> option ServiceCall;
  onCollectionModification : CollectionModificationEvent -> option ServiceCall;
  onTaxRateModification : TaxRateModificationEvent -> option ServiceCall
}.

(** [onVendureBootstrap] (lines 223-252), as far as the subscriptions go:
    when [checkConnection] throws the method logs and returns before
    subscribing, and when [createIndicesIfNotExists] throws the method
    throws before subscribing. *)
Definition onVendureBootstrap (checkConnection createIndicesIfNotExists : Result unit)
    : option Subscriptions :=
  match checkConnection, createIndicesIfNotExists with
  | Ok _, Ok _ =>
      Some {| onCatalogModification := catalogModificationHandler;
              onCollectionModification := collectionModificationHandler;
              onTaxRateModification := taxRateModificationHandler |}
  | _, _ => None
  end.

(** An event published on the bus. *)
Inductive DomainEvent : Type :=
| CatalogModified (e : CatalogModificationEvent)
| CollectionModified (e : CollectionModificationEvent)
| TaxRateModified (e : TaxRateModificationEvent).

(** Publishing an event runs the handler subscribed to its type, if the
    plugin subscribed at all. *)
Definition publish (subs : option Subscriptions) (ev : DomainEvent)
    : option ServiceCall :=
  match subs with
  | None => None
  | Some s =>
      match ev with
      | CatalogModified e => onCatalogModification s e
      | CollectionModified e => onCollectionModification s e
      | TaxRateModified e => onTaxRateModification s e
      end
  end.
End Handlers.

End ElasticsearchPlugin.


(** ** Jobs and job buffers *)

(** Job states; [Completed], [Failed] and [Cancelled] are terminal. *)
Inductive JobState : Type :=
| Pending
| Running
| Completed
| Failed
| Cancelled.

(** The payloads this subsystem sees.  Each carries the request context
    (channel and language) it was created under. *)
Inductive JobData : Type :=
(* update the index documents of these products / variants *)
| UpdateIndex (ctx : RequestContext) (ids : list ID)
(* reindex everything *)
| ReindexAll (ctx : RequestContext)
(* recompute the membership of one collection; [ancestorIds] is the path
   from the root of the collection tree down to the parent *)
| ApplyCollectionFilters (ctx : RequestContext) (collectionId : ID)
    (ancestorIds : list ID).

Record Job : Type := MkJob {
  job_id : option ID;
  queueName : string;
  data : JobData;
  createdAt : Z;
  retries : nat;
  state : JobState
}.

Definition withData (j : Job) (d : JobData) : Job :=
  {| job_id := None; queueName := queueName j; data := d;
     createdAt := createdAt j; retries := retries j; state := Pending |}.

(** Modelled from the spec: the [JobBuffer] interface is not under src/
    (section 4.1): a stable identity, a pure [accepts] predicate and a
    [collect] that maps the whole held batch to a new job list and may
    raise. [add] and [clear] act on the registry's store, see
    [JobQueueService]. *)
Record JobBuffer : Type := MkJobBuffer {
  id : string;
  accepts : Job -> bool;
  collect : list Job -> Result (list Job)
}.

(** ** The buffer registry and flush coordinator *)

Module JobQueueService.

(** Modelled from the spec: [JobQueueService] (addBuffer, bufferSize, flush
    and the buffer-aware submission point) is not under src/; this is
    section 4.2.  The registry keeps the buffers in registration order and
    the held batches in a map keyed by buffer identity; the execution queue
    is the list of jobs handed to it, oldest first. *)
Record State : Type := MkState {
  buffers : list JobBuffer;
  held : gmap string (list Job);
  executionQueue : list Job
}.

Definition initial : State :=
  {| buffers := []; held := ∅; executionQueue := [] |}.

Definition heldBy (w : State) (b : string) : list Job :=
  default [] (held w !! b).

(** Modelled from the spec: [register]: a second registration under the
    same identity replaces the first (last write wins). *)
Fixpoint replaceOrAppend (b : JobBuffer) (bs : list JobBuffer) : list JobBuffer :=
  match bs with
  | [] => [b]
  | b0 :: rest =>
      if decide (id b0 = id b) then b :: rest
      else b0 :: replaceOrAppend b rest
  end.

Definition addBuffer (b : JobBuffer) (w : State) : State :=
  {| buffers := replaceOrAppend b (buffers w);
     held := held w;
     executionQueue := executionQueue w |}.

(** Modelled from the spec: [add] appends to the buffer's ordered
    collection, [clear] empties it. *)
Definition add (b : JobBuffer) (j : Job) (w : State) : State :=
  {| buffers := buffers w;
     held := <[id b := heldBy w (id b) ++ [j]]> (held w);
     executionQueue := executionQueue w |}.

Definition clear (b : JobBuffer) (w : State) : State :=
  {| buffers := buffers w;
     held := <[id b := []]> (held w);
     executionQueue := executionQueue w |}.

Definition enqueue (js : list Job) (w : State) : State :=
  {| buffers := buffers w;
     held := held w;
     executionQueue := executionQueue w ++ js |}.

(** Modelled from the spec: [submit] hands the job to the first registered
    buffer that accepts it, in registration order; when none does the job
    goes to the execution queue. *)
Definition submit (j : Job) (w : State) : State :=
  match List.find (fun b => accepts b j) (buffers w) with
  | Some b => add b j w
  | None => enqueue [j] w
  end.

Definition named (forBuffers : list JobBuffer) (w : State) : list JobBuffer :=
  match forBuffers with
  | [] => buffers w
  | _ => forBuffers
  end.

(** Modelled from the spec: [bufferSize] maps each named buffer (all of
    them when none is named) to the length of its held batch. *)
Definition bufferSize (forBuffers : list JobBuffer) (w : State) : gmap string Z :=
  list_to_map
    ((fun b => (id b, Z.of_nat (length (heldBy w (id b))))) <$> named forBuffers w).

(** Modelled from the spec: [flush], buffer by buffer: snapshot the held
    batch, [collect] it, submit every resulting job, and only then clear.
    A [collect] that raises aborts the flush there and then. *)
Fixpoint flushEach (bs : list JobBuffer) (w : State) : Result (list Job) * State :=
  match bs with
  | [] => (Ok [], w)
  | b :: rest =>
      let batch := heldBy w (id b) in
      match collect b batch with
      | Throw e => (Throw e, w)
      | Ok out =>
          match flushEach rest (clear b (enqueue out w)) with
          | (Ok more, w') => (Ok (out ++ more), w')
          | (Throw e, w') => (Throw e, w')
          end
      end
  end.

Definition flush (forBuffers : list JobBuffer) (w : State) : Result (list Job) * State :=
  flushEach (named forBuffers w) w.

(** What [submit] does with a job: the first registered buffer that accepts
    it holds it, or, when none accepts, the execution queue gets it. *)
Inductive Routed (j : Job) (w w' : State) : Prop :=
| Buffered (pre post : list JobBuffer) (b : JobBuffer) :
    buffers w = pre ++ b :: post ->
    Forall (fun b0 => accepts b0 j = false) pre ->
    accepts b j = true ->
    heldBy w' (id b) = heldBy w (id b) ++ [j] ->
    (forall k, k <> id b -> heldBy w' k = heldBy w k) ->
    executionQueue w' = executionQueue w ->
    buffers w' = buffers w ->
    Routed j w w'
| Executed :
    Forall (fun b0 => accepts b0 j = false) (buffers w) ->
    held w' = held w ->
    executionQueue w' = executionQueue w ++ [j] ->
    buffers w' = buffers w ->
    Routed j w w'.

End JobQueueService.

(** ** The two reducers *)

Definition contextOf (j : Job) : RequestContext :=
  match data j with
  | UpdateIndex ctx _ => ctx
  | ReindexAll ctx => ctx
  | ApplyCollectionFilters ctx _ _ => ctx
  end.

Module SearchIndexJobBuffer.

(** Modelled from the spec: the index-update reducer ([SearchIndexJobBuffer],
    imported by the service but not under src/), section 4.1: per-entity
    update jobs are merged into one job per request context, an entity id is
    kept once (where it was first seen), and a reindex-everything job
    supersedes all the others. *)
Definition bufferId : string := "search-index-job-buffer".

Definition isReindexAll (j : Job) : bool :=
  match data j with ReindexAll _ => true | _ => false end.

Definition affectedIds (j : Job) : list ID :=
  match data j with UpdateIndex _ ids => ids | _ => [] end.

Definition allIds (js : list Job) : list ID :=
  concat (affectedIds <$> js).

Definition accepts (j : Job) : bool :=
  match data j with
  | UpdateIndex _ _ | ReindexAll _ => true
  | ApplyCollectionFilters _ _ _ => false
  end.

(** The ids of [ids] that are not in [seen], each once, in order of first
    appearance. *)
Definition freshIds (seen ids : list ID) : list ID :=
  list_difference (remove_dups ids) seen.

(** Add [ids] to the output job of context [ctx]; when there is none yet, a
    new job made from [ref] goes to the end. *)
Fixpoint addToContext (ctx : RequestContext) (ids : list ID) (ref : Job)
    (out : list Job) : list Job :=
  match out with
  | [] => [withData ref (UpdateIndex ctx ids)]
  | o :: rest =>
      match data o with
      | UpdateIndex c ids0 =>
          if decide (c = ctx)
          then withData o (UpdateIndex c (ids0 ++ ids)) :: rest
          else o :: addToContext ctx ids ref rest
      | _ => o :: addToContext ctx ids ref rest
      end
  end.

Definition collectStep (out : list Job) (j : Job) : list Job :=
  match data j with
  | UpdateIndex ctx ids =>
      match freshIds (allIds out) ids with
      | [] => out
      | fresh => addToContext ctx fresh j out
      end
  | _ => out
  end.

Definition collect (batch : list Job) : Result (list Job) :=
  match List.find isReindexAll batch with
  | Some r => Ok [r]
  | None => Ok (foldl collectStep [] batch)
  end.

Definition buffer : JobBuffer :=
  MkJobBuffer bufferId accepts collect.

(** Every id of [o] comes from a job of [source] with the context of [o]. *)
Definition justified (source : list Job) (o : Job) : Prop :=
  forall i, i ∈ affectedIds o ->
    exists j, j ∈ source /\ contextOf j = contextOf o /\ i ∈ affectedIds j.

End SearchIndexJobBuffer.

Module CollectionJobBuffer.

(** Modelled from the spec: the collection-filter reducer
    ([CollectionJobBuffer], imported by the service but not under src/),
    section 4.1: one job per distinct collection id (the first one held),
    emitted by depth in the collection tree, shallowest first. *)
Definition bufferId : string := "collection-job-buffer".

Definition collectionIdOf (j : Job) : option ID :=
  match data j with
  | ApplyCollectionFilters _ c _ => Some c
  | _ => None
  end.

Definition ancestorsOf (j : Job) : list ID :=
  match data j with
  | ApplyCollectionFilters _ _ anc => anc
  | _ => []
  end.

Definition depth (j : Job) : nat := length (ancestorsOf j).

Definition accepts (j : Job) : bool :=
  match collectionIdOf j with Some _ => true | None => false end.

(** Keep the first job of every collection id not in [seen]. *)
Fixpoint firstPerCollection (seen : list ID) (batch : list Job) : list Job :=
  match batch with
  | [] => []
  | j :: rest =>
      match collectionIdOf j with
      | Some c =>
          if decide (c ∈ seen) then firstPerCollection seen rest
          else withData j (data j) :: firstPerCollection (c :: seen) rest
      | None => firstPerCollection seen rest
      end
  end.

Definition shallower (a b : Job) : Prop := (depth a <= depth b)%nat.

#[global] Instance shallower_dec (a b : Job) : Decision (shallower a b).
Proof. unfold shallower. apply _. Defined.

#[global] Instance shallower_trans : Transitive shallower.
Proof. unfold shallower. intros a b c. lia. Qed.

#[global] Instance shallower_total : Total shallower.
Proof. unfold shallower. intros a b. lia. Qed.

Definition collect (batch : list Job) : Result (list Job) :=
  Ok (merge_sort shallower (firstPerCollection [] batch)).

Definition buffer : JobBuffer :=
  MkJobBuffer bufferId accepts collect.



End CollectionJobBuffer.

(** ** The search job buffer service (search-job-buffer.service.ts) *)

Module SearchJobBufferService.

Record DefaultSearchPluginInitOptions : Type := MkOptions {
  (* [bufferUpdates?: boolean] *)
  bufferUpdates : option bool
}.

(** JavaScript truthiness of an optional boolean, as used by
    [!this.options.bufferUpdates]. *)
Definition truthy (b : option bool) : bool :=
  match b with Some true => true | _ => false end.

Record JobUpdateOptions : Type := MkJobUpdateOptions {
  pollInterval : Z;
  timeoutMs : Z
}.

Section Service.
Context {JobQueueStrategy : Type}.
(** [isInspectableJobQueueStrategy] is imported from the config package. *)
Variable isInspectableJobQueueStrategy : JobQueueStrategy -> bool.

(** [new SubscribableJob(job, jobQueueStrategy)] *)
Record SubscribableJob : Type := MkSubscribableJob {
  sj_job : Job;
  sj_strategy : JobQueueStrategy
}.

(** One [sj.updates(options)] observable handed to [forkJoin]. *)
Definition Updates : Type := (SubscribableJob * JobUpdateOptions)%type.

(** The service's methods are sequences of awaited calls on its
    collaborators; a program is a tree of such calls, each with the
    continuation that receives the call's result. *)
Inductive Prog (A : Type) : Type :=
| Ret (a : A)
(* this.jobQueueService.addBuffer(buffer) *)
| AddBuffer (b : JobBuffer) (k : Prog A)
(* await this.jobQueueService.bufferSize(...buffers) *)
| BufferSize (bs : list JobBuffer) (k : gmap string Z -> Prog A)
(* await this.jobQueueService.flush(...buffers) *)
| Flush (bs : list JobBuffer) (k : list Job -> Prog A)
(* await forkJoin(...updates).toPromise() *)
| ForkJoin (us : list Updates) (k : Prog A).
Arguments Ret {A} a.
Arguments AddBuffer {A} b k.
Arguments BufferSize {A} bs k.
Arguments Flush {A} bs k.
Arguments ForkJoin {A} us k.

Fixpoint bind {A B : Type} (p : Prog A) (f : A -> Prog B) : Prog B :=
  match p with
  | Ret a => f a
  | AddBuffer b k => AddBuffer b (bind k f)
  | BufferSize bs k => BufferSize bs (fun m => bind (k m) f)
  | Flush bs k => Flush bs (fun js => bind (k js) f)
  | ForkJoin us k => ForkJoin us (bind k f)
  end.

Definition addBuffer (b : JobBuffer) : Prog unit := AddBuffer b (Ret tt).
Definition bufferSize (bs : list JobBuffer) : Prog (gmap string Z) := BufferSize bs Ret.
Definition flush (bs : list JobBuffer) : Prog (list Job) := Flush bs Ret.
Definition forkJoin (us : list Updates) : Prog unit := ForkJoin us (Ret tt).

#[global] Instance Prog_bind : MBind Prog := fun A B f p => bind p f.
#[global] Instance Prog_ret : MRet Prog := @Ret.

(** The two buffers the service owns (lines 53-54). *)
Definition searchIndexJobBuffer : JobBuffer := SearchIndexJobBuffer.buffer.
Definition collectionJobBuffer : JobBuffer := CollectionJobBuffer.buffer.

(* lines 62-67 *)
Definition onApplicationBootstrap (options : DefaultSearchPluginInitOptions)
    : Prog unit :=
  if bool_decide (bufferUpdates options = Some true) then
    addBuffer searchIndexJobBuffer ;;
    addBuffer collectionJobBuffer
  else Ret tt.

(** [bufferSizes[id] ?? 0] *)
Definition sizeOrZero (bufferSizes : gmap string Z) (b : string) : Z :=
  match bufferSizes !! b with
  | Some n => n
  | None => 0
  end.

(* lines 69-80 *)
Definition getPendingSearchUpdates (options : DefaultSearchPluginInitOptions)
    : Prog Z :=
  if negb (truthy (bufferUpdates options)) then Ret 0
  else
    bufferSizes ← bufferSize [searchIndexJobBuffer; collectionJobBuffer];
    Ret (sizeOrZero bufferSizes (id searchIndexJobBuffer)
         + sizeOrZero bufferSizes (id collectionJobBuffer)).

(** [collectionFilterJobs.length], as a condition. *)
Definition nonEmpty (jobs : list Job) : bool :=
  match jobs with [] => false | _ :: _ => true end.

Definition updateOptions : JobUpdateOptions :=
  {| pollInterval := 500; timeoutMs := 3 * 60 * 1000 |}.

(* lines 82-100 *)
Definition runPendingSearchUpdates (options : DefaultSearchPluginInitOptions)
    (jobQueueStrategy : JobQueueStrategy) : Prog unit :=
  if negb (truthy (bufferUpdates options)) then Ret tt
  else
    collectionFilterJobs ← flush [collectionJobBuffer];
    (if nonEmpty collectionFilterJobs
        && isInspectableJobQueueStrategy jobQueueStrategy
     then
       let subscribableCollectionJobs :=
         (fun job => MkSubscribableJob job jobQueueStrategy) <$> collectionFilterJobs in
       forkJoin ((fun sj => (sj, updateOptions)) <$> subscribableCollectionJobs)
     else Ret tt) ;;
    _ ← flush [searchIndexJobBuffer];
    Ret tt.

(** *** Running a program *)

(** The calls a run makes, in order. *)
Inductive Call : Type :=
| CallAddBuffer (b : string)
| CallBufferSize (bs : list string)
| CallFlush (bs : list string)
| CallForkJoin (us : list Updates).

(** What the collaborators do to a world [W].  [bufferSize] only reads;
    [flush] and the awaited [forkJoin] may fail. *)
Record Collaborators (W : Type) : Type := MkCollaborators {
  doAddBuffer : JobBuffer -> W -> W;
  doBufferSize : list JobBuffer -> W -> gmap string Z;
  doFlush : list JobBuffer -> W -> Result (list Job) * W;
  doForkJoin : list Updates -> W -> Result unit * W
}.
Arguments doAddBuffer {W} _ _ _.
Arguments doBufferSize {W} _ _ _.
Arguments doFlush {W} _ _ _.
Arguments doForkJoin {W} _ _ _.

Record Run (A W : Type) : Type := MkRun {
  calls : list Call;
  outcome : Result A;
  world : W
}.
Arguments MkRun {A W} _ _ _.
Arguments calls {A W} _.
Arguments outcome {A W} _.
Arguments world {A W} _.

Definition after {A W : Type} (c : Call) (r : Run A W) : Run A W :=
  MkRun (c :: calls r) (outcome r) (world r).

(** A call that throws ends the run: the continuation is not entered. *)
Fixpoint exec {A W : Type} (h : Collaborators W) (p : Prog A) (w : W) : Run A W :=
  match p with
  | Ret a => MkRun [] (Ok a) w
  | AddBuffer b k =>
      after (CallAddBuffer (id b)) (exec h k (doAddBuffer h b w))
  | BufferSize bs k =>
      after (CallBufferSize (id <$> bs)) (exec h (k (doBufferSize h bs w)) w)
  | Flush bs k =>
      after (CallFlush (id <$> bs))
        match doFlush h bs w with
        | (Ok jobs, w') => exec h (k jobs) w'
        | (Throw e, w') => MkRun [] (Throw e) w'
        end
  | ForkJoin us k =>
      after (CallForkJoin us)
        match doForkJoin h us w with
        | (Ok _, w') => exec h k w'
        | (Throw e, w') => MkRun [] (Throw e) w'
        end
  end.

(** The service wired to the registry of [JobQueueService]; how submitted
    jobs settle is left to [settle]. *)
Definition registry (settle : list Updates -> JobQueueService.State ->
                              Result unit * JobQueueService.State)
    : Collaborators JobQueueService.State :=
  {| doAddBuffer := JobQueueService.addBuffer;
     doBufferSize := JobQueueService.bufferSize;
     doFlush := JobQueueService.flush;
     doForkJoin := settle |}.

End Service.

Arguments Ret {JobQueueStrategy A} a.
Arguments AddBuffer {JobQueueStrategy A} b k.
Arguments BufferSize {JobQueueStrategy A} bs k.
Arguments Flush {JobQueueStrategy A} bs k.
Arguments ForkJoin {JobQueueStrategy A} us k.
Arguments doAddBuffer {JobQueueStrategy W} _ _ _.
Arguments doBufferSize {JobQueueStrategy W} _ _ _.
Arguments doFlush {JobQueueStrategy W} _ _ _.
Arguments doForkJoin {JobQueueStrategy W} _ _ _.
Arguments MkRun {JobQueueStrategy A W} _ _ _.
Arguments calls {JobQueueStrategy A W} _.
Arguments outcome {JobQueueStrategy A W} _.
Arguments world {JobQueueStrategy A W} _.

End SearchJobBufferService.

(** ** From service calls to submitted jobs *)

Module IndexService.
Import ElasticsearchPlugin.

(** Modelled from the spec: [ElasticsearchIndexService] and
    [ElasticsearchService] are imported by plugin.ts but are not under src/.
    Section 4.4: a catalog event yields an index-update job for that single
    entity, a collection event one for the given variant ids, a tax-rate
    event a full reindex; every such job goes through the registry's
    [submit]. *)
Definition indexQueue : string := "update-search-index".

Definition newJob (d : JobData) : Job :=
  {| job_id := None; queueName := indexQueue; data := d;
     createdAt := 0; retries := 0%nat; state := Pending |}.

Definition jobOf (call : ServiceCall) : Job :=
  match call with
  | UpdateProductOrVariantStart ctx e => newJob (UpdateIndex ctx [entity_id e])
  | UpdateVariantsByIdStart ctx ids => newJob (UpdateIndex ctx ids)
  | Reindex ctx => newJob (ReindexAll ctx)
  end.

Definition perform (call : option ServiceCall) (w : JobQueueService.State)
    : JobQueueService.State :=
  match call with
  | Some c => JobQueueService.submit (jobOf c) w
  | None => w
  end.

(** An event published on the bus of a bootstrapped plugin, end to end. *)
Definition handle (idsAreEqual : ID -> ID -> bool) (ev : DomainEvent)
    (w : JobQueueService.State) : JobQueueService.State :=
  perform (publish (onVendureBootstrap idsAreEqual (Ok tt) (Ok tt)) ev) w.

End IndexService.

(** ** One flush among concurrent producers *)

Module AtomicDrain.

(** Modelled from the spec: the flush of one buffer as the coordinator
    ([JobQueueService], not under src/) must run it among concurrent [add]
    calls, sections 4.2 and 5: one atomic drain swaps the held collection
    for an empty one; [collect], the submissions and the final clear work on
    the swapped-out copy.  Between any two of these steps producers may add.
    When [collect] raises, the copy goes back in front of what was added
    meanwhile (section 4.1: the batch is retried by the next flush). *)
Inductive Phase : Type :=
| Idle
(* the swapped-out copy, before [collect] *)
| Drained (batch : list Job)
(* after [collect]: the copy and the collected jobs still to submit *)
| Submitting (batch : list Job) (todo : list Job).

Record Buffer : Type := MkBuffer {
  held : list Job;
  phase : Phase;
  queue : list Job;
  (* the batches [collect] accepted so far, oldest first *)
  flushed : list (list Job)
}.

Inductive Step : Type :=
| Add (j : Job)
| Drain
| Collect
| Submit
| Clear.

Section Steps.
Variable collect : list Job -> Result (list Job).

Definition step (s : Buffer) (l : Step) : option Buffer :=
  match l, phase s with
  | Add j, _ =>
      Some (MkBuffer (held s ++ [j]) (phase s) (queue s) (flushed s))
  | Drain, Idle =>
      Some (MkBuffer [] (Drained (held s)) (queue s) (flushed s))
  | Collect, Drained b =>
      match collect b with
      | Ok out => Some (MkBuffer (held s) (Submitting b out) (queue s) (flushed s ++ [b]))
      | Throw _ => Some (MkBuffer (b ++ held s) Idle (queue s) (flushed s))
      end
  | Submit, Submitting b (j :: todo) =>
      Some (MkBuffer (held s) (Submitting b todo) (queue s ++ [j]) (flushed s))
  | Clear, Submitting b [] =>
      Some (MkBuffer (held s) Idle (queue s) (flushed s))
  | _, _ => None
  end.

(** A schedule runs as long as each step is enabled. *)
Fixpoint run (s : Buffer) (ls : list Step) : option Buffer :=
  match ls with
  | [] => Some s
  | l :: rest =>
      match step s l with
      | Some s' => run s' rest
      | None => None
      end
  end.

(** The jobs a schedule adds, in order. *)
Fixpoint added (ls : list Step) : list Job :=
  match ls with
  | [] => []
  | Add j :: rest => j :: added rest
  | _ :: rest => added rest
  end.

(** Where a flush that drained [batch] from [s0] can stand after some
    schedule that added [adds] since the drain. *)
Inductive Window (s0 : Buffer) (batch adds : list Job) (s : Buffer) : Prop :=
| BeforeCollect :
    phase s = Drained batch -> held s = adds ->
    flushed s = flushed s0 -> queue s = queue s0 ->
    Window s0 batch adds s
| WhileSubmitting (out todo : list Job) :
    collect batch = Ok out -> phase s = Submitting batch todo ->
    held s = adds -> flushed s = flushed s0 ++ [batch] ->
    queue s ++ todo = queue s0 ++ out ->
    Window s0 batch adds s
| Done (out : list Job) :
    collect batch = Ok out -> phase s = Idle ->
    held s = adds -> flushed s = flushed s0 ++ [batch] ->
    queue s = queue s0 ++ out ->
    Window s0 batch adds s
| Aborted (e : Error) :
    collect batch = Throw e -> phase s = Idle ->
    held s = batch ++ adds ->
    flushed s = flushed s0 -> queue s = queue s0 ->
    Window s0 batch adds s.

(** Every job the buffer was given and that is not yet dropped: the batches
    already collected, the copy in flight, and what is held. *)
Definition inFlight (s : Buffer) : list Job :=
  match phase s with
  | Drained batch => batch
  | _ => []
  end.

Definition ledger (s : Buffer) : list Job :=
  concat (flushed s) ++ inFlight s ++ held s.

(** The steps of a flush that no producer interrupts and that collects
    [n] jobs. *)
Definition uninterrupted (n : nat) : list Step :=
  Drain :: Collect :: replicate n Submit ++ [Clear].

End Steps.

End AtomicDrain.

(** ** Sample data *)

Module Examples.
Import ElasticsearchPlugin.

Definition zone7 : Zone := MkZone (IdNum 7).

Definition channel1 : Channel :=
  {| channel_id := IdNum 1; defaultTaxZone := Some zone7 |}.

Definition english : RequestContext :=
  {| channel := channel1; languageCode := "en" |}.

Definition german : RequestContext :=
  {| channel := channel1; languageCode := "de" |}.

Definition update (ctx : RequestContext) (ids : list Z) : Job :=
  IndexService.newJob (UpdateIndex ctx (IdNum <$> ids)).

Definition reindex (ctx : RequestContext) : Job :=
  IndexService.newJob (ReindexAll ctx).

Definition recompute (collection : Z) (ancestors : list Z) : Job :=
  {| job_id := None; queueName := "apply-collection-filters";
     data := ApplyCollectionFilters english (IdNum collection) (IdNum <$> ancestors);
     createdAt := 0; retries := 0%nat; state := Pending |}.

(** Collection 2 sits under collection 1, which sits under the root 0. *)
Definition parent : Job := recompute 1 [0].
Definition child : Job := recompute 2 [0; 1].

(** Ids compared as values. *)
Definition sameId (a b : ID) : bool := bool_decide (a = b).

Definition rateIn (z : Z) : TaxRate :=
  {| taxRate_id := IdNum 40; zone := MkZone (IdNum z) |}.

(** A buffer whose reducer gives up on any non-empty batch. *)
Definition failing : JobBuffer :=
  {| id := "failing";
     accepts := fun _ => true;
     collect := fun batch =>
       match batch with
       | [] => Ok []
       | _ :: _ => Throw (MkError "reducer failed")
       end |}.

(** A registry with the two search buffers, two collection jobs and one
    index job held. *)
Definition busy : JobQueueService.State :=
  JobQueueService.submit (update english [5])
    (JobQueueService.submit parent
       (JobQueueService.submit child
          (JobQueueService.addBuffer CollectionJobBuffer.buffer
             (JobQueueService.addBuffer SearchIndexJobBuffer.buffer
                JobQueueService.initial)))).

(** A registry where [failing] holds one job. *)
Definition stuck : JobQueueService.State :=
  JobQueueService.submit (update english [5])
    (JobQueueService.addBuffer failing JobQueueService.initial).

(** Queue strategies, told apart by whether they can be inspected; every
    awaited job settles. *)
Definition settles (us : list (SearchJobBufferService.Updates (JobQueueStrategy := bool)))
    (w : JobQueueService.State) : Result unit * JobQueueService.State :=
  (Ok tt, w).

Definition inspectable (strategy : bool) : bool := strategy.

Definition buffering : SearchJobBufferService.DefaultSearchPluginInitOptions :=
  {| SearchJobBufferService.bufferUpdates := Some true |}.

Definition notBuffering : SearchJobBufferService.DefaultSearchPluginInitOptions :=
  {| SearchJobBufferService.bufferUpdates := None |}.

(** A buffer holding two jobs, idle, and a schedule in which two producers
    add while the flush runs. *)
Definition twoHeld : AtomicDrain.Buffer :=
  {| AtomicDrain.held := [update english [1]; update english [2]];
     AtomicDrain.phase := AtomicDrain.Idle;
     AtomicDrain.queue := [];
     AtomicDrain.flushed := [] |}.

Definition racing : list AtomicDrain.Step :=
  [AtomicDrain.Add (update english [3]); AtomicDrain.Collect;
   AtomicDrain.Add (update german [4]); AtomicDrain.Submit; AtomicDrain.Clear].

End Examples.

From Stdlib Require Import Ascii.

(** ** The console logger (src/unnamed/part_003) *)

Module DefaultLogger.

Definition DEFAULT_CONTEXT : string := "Vendure Server".

Definition newline : string := String "010"%char "".

(** The numeric enum [LogLevel] is imported from the logger interface file;
    its five members are kept as they are named there. *)
Record LogLevelEnum : Type := MkLogLevel {
  Error : Z;
  Warn : Z;
  Info : Z;
  Verbose : Z;
  Debug : Z
}.

(** The [chalk] styles the logger uses. *)
Record Chalk : Type := MkChalk {
  red : string -> string;
  yellow : string -> string;
  blue : string -> string;
  magenta : string -> string;
  cyan : string -> string;
  gray : string -> string
}.

(** [options?: { level?: LogLevel; timestamp?: boolean }] *)
Record Options : Type := MkLoggerOptions {
  opt_level : option Z;
  opt_timestamp : option bool
}.

Record Logger : Type := MkLogger {
  level : Z;
  timestamp : bool;
  defaultContext : string
}.

Definition withLevel (lg : Logger) (l : Z) : Logger :=
  {| level := l; timestamp := timestamp lg; defaultContext := defaultContext lg |}.

(** [message: string | object | any[]] *)
Inductive Message (Obj : Type) : Type :=
| Text (s : string)
| Structured (o : Obj).
Arguments Text {Obj} s.
Arguments Structured {Obj} o.

Section Logger.
Variable LogLevel : LogLevelEnum.
Variable chalk : Chalk.
Context {Obj : Type}.
(** [JSON.stringify(message, null, 2)] *)
Variable stringify : Obj -> string.

(* lines 39-42 *)
Definition new (options : option Options) : Logger :=
  {| level :=
       match options with
       | Some o => match opt_level o with Some l => l | None => Info LogLevel end
       | None => Info LogLevel
       end;
     timestamp :=
       match options with
       | Some o => match opt_timestamp o with Some t => t | None => true end
       | None => true
       end;
     defaultContext := DEFAULT_CONTEXT |}.

(* lines 78-80 *)
Definition setDefaultContext (lg : Logger) (defaultContext : string) : Logger :=
  {| level := level lg; timestamp := timestamp lg; defaultContext := defaultContext |}.

(* lines 139-141 *)
Definition ensureString (message : Message Obj) : string :=
  match message with
  | Text s => s
  | Structured o => stringify o
  end.

(** [context || this.defaultContext]: an absent or empty context is falsy. *)
Definition contextOrDefault (lg : Logger) (context : option string) : string :=
  match context with
  | Some c => if bool_decide (c = "") then defaultContext lg else c
  | None => defaultContext lg
  end.

(* lines 126-128 *)
Definition logContext (lg : Logger) (context : option string) : string :=
  cyan chalk ("[" +:+ contextOrDefault lg context +:+ "]").

(* lines 130-137; [now] is the clock reading, already formatted by
   [toLocaleString] *)
Definition logTimestamp (lg : Logger) (now : string) : string :=
  if timestamp lg then gray chalk (now +:+ " -") else "".

(* lines 120-124; the result is what is written to stdout *)
Definition logMessage (lg : Logger) (now : string) (prefix message : string)
    (context : option string) : list string :=
  [String.concat " "
     [prefix; logTimestamp lg now; logContext lg context; message; newline]].

(** [trace ? `\n${trace}` : ''] *)
Definition traceSuffix (trace : option string) : string :=
  match trace with
  | Some t => if bool_decide (t = "") then "" else newline +:+ t
  | None => ""
  end.

(* lines 82-98 *)
Definition error (lg : Logger) (now : string) (message : Message Obj)
    (context trace : option string) : list string :=
  if bool_decide (context = Some "ExceptionsHandler") && (level lg <? Verbose LogLevel)
  then []
  else if level lg >=? Error LogLevel
  then logMessage lg now (red chalk "error")
         (red chalk (ensureString message +:+ traceSuffix trace)) context
  else [].

(* lines 99-103 *)
Definition warn (lg : Logger) (now : string) (message : Message Obj)
    (context : option string) : list string :=
  if level lg >=? Warn LogLevel
  then logMessage lg now (yellow chalk "warn") (yellow chalk (ensureString message)) context
  else [].

(* lines 104-108 *)
Definition info (lg : Logger) (now : string) (message : Message Obj)
    (context : option string) : list string :=
  if level lg >=? Info LogLevel
  then logMessage lg now (blue chalk "info") (ensureString message) context
  else [].

(* lines 109-113 *)
Definition verbose (lg : Logger) (now : string) (message : Message Obj)
    (context : option string) : list string :=
  if level lg >=? Verbose LogLevel
  then logMessage lg now (magenta chalk "verbose") (ensureString message) context
  else [].

(* lines 114-118 *)
Definition debug (lg : Logger) (now : string) (message : Message Obj)
    (context : option string) : list string :=
  if level lg >=? Debug LogLevel
  then logMessage lg now (magenta chalk "debug") (ensureString message) context
  else [].

(** The process-wide state the two static methods work on: the logger held
    by [Logger.logger], which may or may not be a [DefaultLogger], and the
    static field [originalLogLevel]. *)
Inductive ActiveLogger : Type :=
| IsDefaultLogger (lg : Logger)
| OtherLogger (name : string).

Record Statics : Type := MkStatics {
  logger : ActiveLogger;
  originalLogLevel : option Z
}.

(* lines 52-60 *)
Definition hideNestBoostrapLogs (s : Statics) : Statics :=
  match logger s with
  | IsDefaultLogger lg =>
      if level lg =? Info LogLevel
      then {| logger := IsDefaultLogger (withLevel lg (Warn LogLevel));
              originalLogLevel := Some (Info LogLevel) |}
      else s
  | OtherLogger _ => s
  end.

(* lines 71-76 *)
Definition restoreOriginalLogLevel (s : Statics) : Statics :=
  match logger s, originalLogLevel s with
  | IsDefaultLogger lg, Some original =>
      {| logger := IsDefaultLogger (withLevel lg original);
         originalLogLevel := originalLogLevel s |}
  | _, _ => s
  end.

(** The user sets [logger.level] directly (the field is public). *)
Definition setLevel (s : Statics) (l : Z) : Statics :=
  match logger s with
  | IsDefaultLogger lg =>
      {| logger := IsDefaultLogger (withLevel lg l);
         originalLogLevel := originalLogLevel s |}
  | OtherLogger _ => s
  end.

Definition activeLevel (s : Statics) : option Z :=
  match logger s with
  | IsDefaultLogger lg => Some (level lg)
  | OtherLogger _ => None
  end.

End Logger.

End DefaultLogger.

(** ** Error results of the shop API (src/unnamed/part_001, a generated file) *)

Module GraphQLErrors.

(** The subclasses of [ErrorResult], in the order of the file. *)
Inductive ErrorClass : Type :=
| AlreadyLoggedInError
| CouponCodeExpiredError
| CouponCodeInvalidError
| CouponCodeLimitError
| EmailAddressConflictError
| IdentifierChangeTokenExpiredError
| IdentifierChangeTokenInvalidError
| IneligiblePaymentMethodError
| IneligibleShippingMethodError
| InsufficientStockError
| InvalidCredentialsError
| MissingPasswordError
| NativeAuthStrategyError
| NegativeQuantityError
| NoActiveOrderError
| NotVerifiedError
| OrderLimitError
| OrderModificationError
| OrderPaymentStateError
| OrderStateTransitionError
| PasswordAlreadySetError
| PasswordResetTokenExpiredError
| PasswordResetTokenInvalidError
| PasswordValidationError
| PaymentDeclinedError
| PaymentFailedError
| VerificationTokenExpiredError
| VerificationTokenInvalidError.

#[global] Instance ErrorClass_eq_dec : EqDecision ErrorClass.
Proof. solve_decision. Defined.

Definition allClasses : list ErrorClass :=
  [AlreadyLoggedInError;
   CouponCodeExpiredError;
   CouponCodeInvalidError;
   CouponCodeLimitError;
   EmailAddressConflictError;
   IdentifierChangeTokenExpiredError;
   IdentifierChangeTokenInvalidError;
   IneligiblePaymentMethodError;
   IneligibleShippingMethodError;
   InsufficientStockError;
   InvalidCredentialsError;
   MissingPasswordError;
   NativeAuthStrategyError;
   NegativeQuantityError;
   NoActiveOrderError;
   NotVerifiedError;
   OrderLimitError;
   OrderModificationError;
   OrderPaymentStateError;
   OrderStateTransitionError;
   PasswordAlreadySetError;
   PasswordResetTokenExpiredError;
   PasswordResetTokenInvalidError;
   PasswordValidationError;
   PaymentDeclinedError;
   PaymentFailedError;
   VerificationTokenExpiredError;
   VerificationTokenInvalidError].

(** [readonly __typename = '...'] *)
Definition typename (c : ErrorClass) : string :=
  match c with
  | AlreadyLoggedInError => "AlreadyLoggedInError"
  | CouponCodeExpiredError => "CouponCodeExpiredError"
  | CouponCodeInvalidError => "CouponCodeInvalidError"
  | CouponCodeLimitError => "CouponCodeLimitError"
  | EmailAddressConflictError => "EmailAddressConflictError"
  | IdentifierChangeTokenExpiredError => "IdentifierChangeTokenExpiredError"
  | IdentifierChangeTokenInvalidError => "IdentifierChangeTokenInvalidError"
  | IneligiblePaymentMethodError => "IneligiblePaymentMethodError"
  | IneligibleShippingMethodError => "IneligibleShippingMethodError"
  | InsufficientStockError => "InsufficientStockError"
  | InvalidCredentialsError => "InvalidCredentialsError"
  | MissingPasswordError => "MissingPasswordError"
  | NativeAuthStrategyError => "NativeAuthStrategyError"
  | NegativeQuantityError => "NegativeQuantityError"
  | NoActiveOrderError => "NoActiveOrderError"
  | NotVerifiedError => "NotVerifiedError"
  | OrderLimitError => "OrderLimitError"
  | OrderModificationError => "OrderModificationError"
  | OrderPaymentStateError => "OrderPaymentStateError"
  | OrderStateTransitionError => "OrderStateTransitionError"
  | PasswordAlreadySetError => "PasswordAlreadySetError"
  | PasswordResetTokenExpiredError => "PasswordResetTokenExpiredError"
  | PasswordResetTokenInvalidError => "PasswordResetTokenInvalidError"
  | PasswordValidationError => "PasswordValidationError"
  | PaymentDeclinedError => "PaymentDeclinedError"
  | PaymentFailedError => "PaymentFailedError"
  | VerificationTokenExpiredError => "VerificationTokenExpiredError"
  | VerificationTokenInvalidError => "VerificationTokenInvalidError"
  end.

(** [readonly errorCode = '...' as any] *)
Definition errorCode (c : ErrorClass) : string :=
  match c with
  | AlreadyLoggedInError => "ALREADY_LOGGED_IN_ERROR"
  | CouponCodeExpiredError => "COUPON_CODE_EXPIRED_ERROR"
  | CouponCodeInvalidError => "COUPON_CODE_INVALID_ERROR"
  | CouponCodeLimitError => "COUPON_CODE_LIMIT_ERROR"
  | EmailAddressConflictError => "EMAIL_ADDRESS_CONFLICT_ERROR"
  | IdentifierChangeTokenExpiredError => "IDENTIFIER_CHANGE_TOKEN_EXPIRED_ERROR"
  | IdentifierChangeTokenInvalidError => "IDENTIFIER_CHANGE_TOKEN_INVALID_ERROR"
  | IneligiblePaymentMethodError => "INELIGIBLE_PAYMENT_METHOD_ERROR"
  | IneligibleShippingMethodError => "INELIGIBLE_SHIPPING_METHOD_ERROR"
  | InsufficientStockError => "INSUFFICIENT_STOCK_ERROR"
  | InvalidCredentialsError => "INVALID_CREDENTIALS_ERROR"
  | MissingPasswordError => "MISSING_PASSWORD_ERROR"
  | NativeAuthStrategyError => "NATIVE_AUTH_STRATEGY_ERROR"
  | NegativeQuantityError => "NEGATIVE_QUANTITY_ERROR"
  | NoActiveOrderError => "NO_ACTIVE_ORDER_ERROR"
  | NotVerifiedError => "NOT_VERIFIED_ERROR"
  | OrderLimitError => "ORDER_LIMIT_ERROR"
  | OrderModificationError => "ORDER_MODIFICATION_ERROR"
  | OrderPaymentStateError => "ORDER_PAYMENT_STATE_ERROR"
  | OrderStateTransitionError => "ORDER_STATE_TRANSITION_ERROR"
  | PasswordAlreadySetError => "PASSWORD_ALREADY_SET_ERROR"
  | PasswordResetTokenExpiredError => "PASSWORD_RESET_TOKEN_EXPIRED_ERROR"
  | PasswordResetTokenInvalidError => "PASSWORD_RESET_TOKEN_INVALID_ERROR"
  | PasswordValidationError => "PASSWORD_VALIDATION_ERROR"
  | PaymentDeclinedError => "PAYMENT_DECLINED_ERROR"
  | PaymentFailedError => "PAYMENT_FAILED_ERROR"
  | VerificationTokenExpiredError => "VERIFICATION_TOKEN_EXPIRED_ERROR"
  | VerificationTokenInvalidError => "VERIFICATION_TOKEN_INVALID_ERROR"
  end.

(** [readonly message = '...'] *)
Definition message (c : ErrorClass) : string :=
  match c with
  | AlreadyLoggedInError => "ALREADY_LOGGED_IN_ERROR"
  | CouponCodeExpiredError => "COUPON_CODE_EXPIRED_ERROR"
  | CouponCodeInvalidError => "COUPON_CODE_INVALID_ERROR"
  | CouponCodeLimitError => "COUPON_CODE_LIMIT_ERROR"
  | EmailAddressConflictError => "EMAIL_ADDRESS_CONFLICT_ERROR"
  | IdentifierChangeTokenExpiredError => "IDENTIFIER_CHANGE_TOKEN_EXPIRED_ERROR"
  | IdentifierChangeTokenInvalidError => "IDENTIFIER_CHANGE_TOKEN_INVALID_ERROR"
  | IneligiblePaymentMethodError => "INELIGIBLE_PAYMENT_METHOD_ERROR"
  | IneligibleShippingMethodError => "INELIGIBLE_SHIPPING_METHOD_ERROR"
  | InsufficientStockError => "INSUFFICIENT_STOCK_ERROR"
  | InvalidCredentialsError => "INVALID_CREDENTIALS_ERROR"
  | MissingPasswordError => "MISSING_PASSWORD_ERROR"
  | NativeAuthStrategyError => "NATIVE_AUTH_STRATEGY_ERROR"
  | NegativeQuantityError => "NEGATIVE_QUANTITY_ERROR"
  | NoActiveOrderError => "NO_ACTIVE_ORDER_ERROR"
  | NotVerifiedError => "NOT_VERIFIED_ERROR"
  | OrderLimitError => "ORDER_LIMIT_ERROR"
  | OrderModificationError => "ORDER_MODIFICATION_ERROR"
  | OrderPaymentStateError => "ORDER_PAYMENT_STATE_ERROR"
  | OrderStateTransitionError => "ORDER_STATE_TRANSITION_ERROR"
  | PasswordAlreadySetError => "PASSWORD_ALREADY_SET_ERROR"
  | PasswordResetTokenExpiredError => "PASSWORD_RESET_TOKEN_EXPIRED_ERROR"
  | PasswordResetTokenInvalidError => "PASSWORD_RESET_TOKEN_INVALID_ERROR"
  | PasswordValidationError => "PASSWORD_VALIDATION_ERROR"
  | PaymentDeclinedError => "PAYMENT_DECLINED_ERROR"
  | PaymentFailedError => "PAYMENT_FAILED_ERROR"
  | VerificationTokenExpiredError => "VERIFICATION_TOKEN_EXPIRED_ERROR"
  | VerificationTokenInvalidError => "VERIFICATION_TOKEN_INVALID_ERROR"
  end.

(* line 317 *)
Definition errorTypeNames : gset string :=
  list_to_set
    ["AlreadyLoggedInError";
     "CouponCodeExpiredError";
     "CouponCodeInvalidError";
     "CouponCodeLimitError";
     "EmailAddressConflictError";
     "IdentifierChangeTokenExpiredError";
     "IdentifierChangeTokenInvalidError";
     "IneligiblePaymentMethodError";
     "IneligibleShippingMethodError";
     "InsufficientStockError";
     "InvalidCredentialsError";
     "MissingPasswordError";
     "NativeAuthStrategyError";
     "NegativeQuantityError";
     "NoActiveOrderError";
     "NotVerifiedError";
     "OrderLimitError";
     "OrderModificationError";
     "OrderPaymentStateError";
     "OrderStateTransitionError";
     "PasswordAlreadySetError";
     "PasswordResetTokenExpiredError";
     "PasswordResetTokenInvalidError";
     "PasswordValidationError";
     "PaymentDeclinedError";
     "PaymentFailedError";
     "VerificationTokenExpiredError";
     "VerificationTokenInvalidError"].

(** A JavaScript value, as far as [isGraphQLError] can tell values apart:
    [null] or [undefined]; an instance of [ErrorResult] or of a subclass,
    with its [__typename] field (the base class leaves it undefined); any
    other value, with its [__typename] property if it has one. *)
Inductive Value : Type :=
| Nullish
| ErrorInstance (typeName : option string)
| Other (typeName : option string).

(** [new C(...)] for one of the subclasses. *)
Definition newError (c : ErrorClass) : Value := ErrorInstance (Some (typename c)).

Definition typenameOf (v : Value) : option string :=
  match v with
  | Nullish => None
  | ErrorInstance t => t
  | Other t => t
  end.

(** [errorTypeNames.has(x)] *)
Definition has (names : gset string) (x : option string) : bool :=
  match x with
  | Some n => bool_decide (n ∈ names)
  | None => false
  end.

(** Reading a property of [null] or [undefined] throws a TypeError. *)
Definition typeError : Error := MkError "TypeError".

(* lines 318-320; [instanceof] is false for a nullish value, and the
   right operand of [||] then reads [input.__typename] *)
Definition isGraphQLError (input : Value) : Result bool :=
  match input with
  | ErrorInstance _ => Ok true
  | Nullish => Throw typeError
  | Other t => Ok (has errorTypeNames t)
  end.

(** [__resolveType(value)] of a resolver whose success type is
    [successType]; [None] is [undefined]. *)
Definition resolveType (successType : string) (value : Value) : Result (option string) :=
  match isGraphQLError value with
  | Ok true => Ok (typenameOf value)
  | Ok false => Ok (Some successType)
  | Throw e => Throw e
  end.

(* lines 322-413: the result type and its [__resolveType] *)
Definition shopErrorOperationTypeResolvers
    : list (string * (Value -> Result (option string))) :=
  [("UpdateOrderItemsResult", resolveType "Order");
   ("RemoveOrderItemsResult", resolveType "Order");
   ("ApplyCouponCodeResult", resolveType "Order");
   ("TransitionOrderToStateResult", resolveType "Order");
   ("ActiveOrderResult", resolveType "Order");
   ("SetOrderShippingMethodResult", resolveType "Order");
   ("AddPaymentToOrderResult", resolveType "Order");
   ("SetCustomerForOrderResult", resolveType "Order");
   ("NativeAuthenticationResult", resolveType "CurrentUser");
   ("AuthenticationResult", resolveType "CurrentUser");
   ("RegisterCustomerAccountResult", resolveType "Success");
   ("RefreshCustomerVerificationResult", resolveType "Success");
   ("VerifyCustomerAccountResult", resolveType "CurrentUser");
   ("UpdateCustomerPasswordResult", resolveType "Success");
   ("RequestUpdateCustomerEmailAddressResult", resolveType "Success");
   ("UpdateCustomerEmailAddressResult", resolveType "Success");
   ("RequestPasswordResetResult", resolveType "Success");
   ("ResetPasswordResult", resolveType "CurrentUser")].

(** The success types the resolvers fall back to. *)
Definition successTypes : list string := ["Order"; "CurrentUser"; "Success"].

Definition isUpper (c : ascii) : bool :=
  let n := nat_of_ascii c in (65 <=? n)%nat && (n <=? 90)%nat.

Definition isLower (c : ascii) : bool :=
  let n := nat_of_ascii c in (97 <=? n)%nat && (n <=? 122)%nat.

Definition toUpper (c : ascii) : ascii :=
  if isLower c then ascii_of_nat (nat_of_ascii c - 32) else c.

(** The rest of a camel-case name in upper snake case: an underscore in
    front of every capital, every letter in upper case. *)
Fixpoint snakeTail (s : string) : string :=
  match s with
  | EmptyString => EmptyString
  | String c rest =>
      if isUpper c then String "_" (String c (snakeTail rest))
      else String (toUpper c) (snakeTail rest)
  end.

(** [AlreadyLoggedInError] becomes [ALREADY_LOGGED_IN_ERROR]. *)
Definition upperSnake (s : string) : string :=
  match s with
  | EmptyString => EmptyString
  | String c rest => String (toUpper c) (snakeTail rest)
  end.

End GraphQLErrors.

(** ** The two collection filters (src/unnamed/part_002) *)

Module CollectionFilters.

(** What a filter asks of the query builder it is given; the builder keeps
    the requests in the order they were made. *)
Inductive BracketClause : Type :=
(* qb1.where(condition, { ids }) *)
| Where (condition : string) (ids : list ID)
(* qb1.orWhere(condition, { ids }) *)
| OrWhere (condition : string) (ids : list ID).

Inductive Clause : Type :=
(* qb.leftJoin(property, alias) *)
| LeftJoin (property alias : string)
(* qb.andWhere(new Brackets(qb1 => ...)) *)
| AndWhereBrackets (inner : list BracketClause)
(* qb.andWhere(condition, { term }) *)
| AndWhereTerm (condition : string) (term : string)
(* qb.andWhere(condition) *)
| AndWhere (condition : string)
(* qb.groupBy(column) *)
| GroupBy (column : string)
(* qb.having(condition, { count }) *)
| Having (condition : string) (count : Z).

Definition QueryBuilder : Type := list Clause.

Record FacetValueArgs : Type := MkFacetValueArgs {
  facetValueIds : list ID;
  containsAny : bool
}.

(** [COUNT(1) >= :count] gets 1 or the number of ids. *)
Definition havingCount (args : FacetValueArgs) : Z :=
  if containsAny args then 1 else Z.of_nat (length (facetValueIds args)).

(* lines 17-37 *)
Definition facetValueApply (qb : QueryBuilder) (args : FacetValueArgs) : QueryBuilder :=
  match facetValueIds args with
  | _ :: _ =>
      qb ++
      [LeftJoin "productVariant.product" "product";
       LeftJoin "product.facetValues" "productFacetValues";
       LeftJoin "productVariant.facetValues" "variantFacetValues";
       AndWhereBrackets
         [Where "productFacetValues.id IN (:...ids)" (facetValueIds args);
          OrWhere "variantFacetValues.id IN (:...ids)" (facetValueIds args)];
       GroupBy "productVariant.id";
       Having "COUNT(1) >= :count" (havingCount args)]
  | [] =>
      qb ++ [AndWhere "1 = 0"]
  end.

Record VariantNameArgs : Type := MkVariantNameArgs {
  operator : string;
  term : string
}.

Definition validOperators : list string :=
  ["contains"; "doesNotContain"; "startsWith"; "endsWith"].

(* lines 47-61: the builder after the call, and whether the call returned
   or threw a [UserInputError] *)
Definition variantNameApply (qb : QueryBuilder) (args : VariantNameArgs)
    : QueryBuilder * Result unit :=
  let qb := qb ++ [LeftJoin "productVariant.translations" "translation"] in
  if bool_decide (operator args = "contains") then
    (qb ++ [AndWhereTerm "translation.name LIKE :term" ("%" +:+ term args +:+ "%")], Ok tt)
  else if bool_decide (operator args = "doesNotContain") then
    (qb ++ [AndWhereTerm "translation.name NOT LIKE :term" ("%" +:+ term args +:+ "%")], Ok tt)
  else if bool_decide (operator args = "startsWith") then
    (qb ++ [AndWhereTerm "translation.name LIKE :term" (term args +:+ "%")], Ok tt)
  else if bool_decide (operator args = "endsWith") then
    (qb ++ [AndWhereTerm "translation.name LIKE :term" ("%" +:+ term args)], Ok tt)
  else
    (qb, Throw (MkError (operator args +:+ " is not a valid operator"))).

End CollectionFilters.

(** ** JavaScript string operations used by the two files below *)

Module JsString.

(** [s.split(sep)] for a separator of one character. *)
Fixpoint split (sep : ascii) (s : string) : list string :=
  match s with
  | EmptyString => [EmptyString]
  | String c rest =>
      match split sep rest with
      | seg :: segs =>
          if Ascii.eqb c sep then EmptyString :: seg :: segs
          else String c seg :: segs
      | [] => [String c EmptyString]
      end
  end.

(** [parts.join(sep)] *)
Definition join (sep : string) (parts : list string) : string :=
  String.concat sep parts.

(** White space and line terminators among the code units below 256. *)
Definition isWhiteSpace (c : ascii) : bool :=
  let n := nat_of_ascii c in
  ((9 <=? n)%nat && (n <=? 13)%nat) || (n =? 32)%nat || (n =? 160)%nat.

Fixpoint trimStart (s : string) : string :=
  match s with
  | EmptyString => EmptyString
  | String c rest => if isWhiteSpace c then trimStart rest else s
  end.

Fixpoint trimEnd (s : string) : string :=
  match s with
  | EmptyString => EmptyString
  | String c rest =>
      match trimEnd rest with
      | EmptyString => if isWhiteSpace c then EmptyString else String c EmptyString
      | kept => String c kept
      end
  end.

(** [s.trim()] *)
Definition trim (s : string) : string := trimEnd (trimStart s).

(** How often [c] occurs in [s]. *)
Fixpoint occurrences (c : ascii) (s : string) : nat :=
  match s with
  | EmptyString => 0%nat
  | String c0 rest =>
      if Ascii.eqb c0 c then S (occurrences c rest) else occurrences c rest
  end.

Definition startsWithWhiteSpace (s : string) : bool :=
  match s with
  | EmptyString => false
  | String c _ => isWhiteSpace c
  end.

Fixpoint endsWithWhiteSpace (s : string) : bool :=
  match s with
  | EmptyString => false
  | String c EmptyString => isWhiteSpace c
  | String _ rest => endsWithWhiteSpace rest
  end.

(** Every [from] replaced by [to]. *)
Fixpoint replaceAll (from to : ascii) (s : string) : string :=
  match s with
  | EmptyString => EmptyString
  | String c rest =>
      String (if Ascii.eqb c from then to else c) (replaceAll from to rest)
  end.

End JsString.

(** ** Schema type paths (src/unnamed/part_000) *)

Module GraphQLConfig.

(* line 129: [options.typePaths.map(p => p.split(path.sep).join('/'))];
   [path.sep] is one character *)
Definition normalizedPaths (sep : ascii) (typePaths : list string) : list string :=
  (fun p => JsString.join "/" (JsString.split sep p)) <$> typePaths.

End GraphQLConfig.

(** ** The option group dialog of the admin UI
       (create-option-group-dialog.component.ts) *)

Module CreateOptionGroupDialog.

Record Translation : Type := MkTranslation {
  languageCode : string;
  name : string
}.

Record CreateProductOptionInput : Type := MkOptionInput {
  code : string;
  translations : list Translation
}.

Record CreateProductOptionGroupInput : Type := MkGroupInput {
  group_code : string;
  group_translations : list Translation;
  options : list CreateProductOptionInput
}.

(** [this.optionGroupForm.value] *)
Record FormValue : Type := MkFormValue {
  form_name : string;
  form_code : string;
  form_options : string
}.

(** The form control of the code field: its value and whether the user has
    not touched it yet. *)
Record CodeControl : Type := MkCodeControl {
  control_value : string;
  pristine : bool
}.

Section Dialog.
(** [normalizeString] and [getDefaultLanguage] are imported utilities. *)
Variable normalizeString : string -> string -> string.
Variable getDefaultLanguage : string.

(* lines 80-94 *)
Definition createGroupOptions (rawOptions : string) : list CreateProductOptionInput :=
  (fun name =>
     {| code := normalizeString name "-";
        translations := [{| languageCode := getDefaultLanguage; name := name |}] |})
  <$> (JsString.trim <$> JsString.split "010" rawOptions).

(* lines 64-78 *)
Definition createGroupFromForm (value : FormValue) : CreateProductOptionGroupInput :=
  {| group_code := form_code value;
     group_translations :=
       [{| languageCode := getDefaultLanguage; name := form_name value |}];
     options := createGroupOptions (form_options value) |}.

(* lines 37-42; [setValue] leaves the control pristine *)
Definition updateCode (productName : string) (codeControl : option CodeControl)
    (nameValue : string) : option CodeControl :=
  match codeControl with
  | Some control =>
      if pristine control
      then Some {| control_value := normalizeString (productName +:+ " " +:+ nameValue) "-";
                   pristine := pristine control |}
      else Some control
  | None => None
  end.

End Dialog.

End CreateOptionGroupDialog.

(** ** Reading the context off events and calls *)

Module EventContext.
Import ElasticsearchPlugin.

Definition ofEvent (ev : DomainEvent) : RequestContext :=
  match ev with
  | CatalogModified e => catalog_ctx e
  | CollectionModified e => collection_ctx e
  | TaxRateModified e => taxRate_ctx e
  end.

Definition ofCall (call : ServiceCall) : RequestContext :=
  match call with
  | UpdateProductOrVariantStart ctx _ => ctx
  | UpdateVariantsByIdStart ctx _ => ctx
  | Reindex ctx => ctx
  end.

End EventContext.

(** ** Kinds of calls *)

Module CallKind.

Definition isFlushOrForkJoin {JobQueueStrategy : Type}
    (c : SearchJobBufferService.Call (JobQueueStrategy := JobQueueStrategy)) : bool :=
  match c with
  | SearchJobBufferService.CallFlush _ => true
  | SearchJobBufferService.CallForkJoin _ => true
  | _ => false
  end.

End CallKind.

(** ** More sample data *)

Module MoreExamples.

(** A job queue whose flush fails and that registers and holds nothing. *)
Definition down : SearchJobBufferService.Collaborators (JobQueueStrategy := bool) unit :=
  {| SearchJobBufferService.doAddBuffer := fun _ w => w;
     SearchJobBufferService.doBufferSize := fun _ _ => ∅;
     SearchJobBufferService.doFlush := fun _ w => (Throw (MkError "queue is down"), w);
     SearchJobBufferService.doForkJoin := fun _ w => (Ok tt, w) |}.

(** A job queue that has nothing buffered. *)
Definition idle : SearchJobBufferService.Collaborators (JobQueueStrategy := bool) unit :=
  {| SearchJobBufferService.doAddBuffer := fun _ w => w;
     SearchJobBufferService.doBufferSize := fun _ _ => ∅;
     SearchJobBufferService.doFlush := fun _ w => (Ok [], w);
     SearchJobBufferService.doForkJoin := fun _ w => (Ok tt, w) |}.

(** Levels numbered from the most to the least severe. *)
Definition levels : DefaultLogger.LogLevelEnum :=
  {| DefaultLogger.Error := 0; DefaultLogger.Warn := 1; DefaultLogger.Info := 2;
     DefaultLogger.Verbose := 3; DefaultLogger.Debug := 4 |}.

(** A terminal without colours. *)
Definition plain : DefaultLogger.Chalk :=
  {| DefaultLogger.red := fun s => s; DefaultLogger.yellow := fun s => s;
     DefaultLogger.blue := fun s => s; DefaultLogger.magenta := fun s => s;
     DefaultLogger.cyan := fun s => s; DefaultLogger.gray := fun s => s |}.

Definition show (n : Z) : string := "{}".

Definition fresh : DefaultLogger.Statics :=
  {| DefaultLogger.logger :=
       DefaultLogger.IsDefaultLogger (DefaultLogger.new levels None);
     DefaultLogger.originalLogLevel := None |}.

Definition hyphenate (s sep : string) : string :=
  JsString.replaceAll " " "-" s.



End MoreExamples.

(** * Properties *)

Import ElasticsearchPlugin.

(** ** Event handlers *)

(** C10: a catalog-entity-modified event whose entity is neither a Product
    nor a ProductVariant makes the catalog subscription call no service at
    all; for a Product or a ProductVariant it makes exactly the
    single-entity index update for that entity.  (A plugin whose bootstrap
    could not reach Elasticsearch has no subscription and calls nothing.) *)
Theorem catalog_event_only_products_and_variants :
  forall (idsAreEqual : ID -> ID -> bool) (event : CatalogModificationEvent),
    publish (onVendureBootstrap idsAreEqual (Ok tt) (Ok tt)) (CatalogModified event)
    = match entityClass (entity event) with
      | Product | ProductVariant =>
          Some (UpdateProductOrVariantStart (catalog_ctx event) (entity event))
      | OtherEntity _ => None
      end /\
    forall (checkConnection createIndices : Result unit) (className : string),
      entityClass (entity event) = OtherEntity className ->
      publish (onVendureBootstrap idsAreEqual checkConnection createIndices)
        (CatalogModified event)
      = None.
Proof.
  intros idsAreEqual [ctx [cls eid]]; simpl.
  unfold catalogModificationHandler, instanceofProduct, instanceofProductVariant; simpl.
  split.
  - destruct cls; reflexivity.
  - intros [[]|e] [[]|e'] className ->; reflexivity.
Qed.

(** C7: a tax-rate-modified event makes the subscription ask for a full
    reindex exactly when the channel has a default tax zone and the changed
    rate's zone is that zone; in every other case the handler makes no call,
    so nothing is submitted.  Whatever the bootstrap did, a call made for
    such an event is a full reindex for a rate in the default zone. *)
Theorem tax_rate_event_reindexes_iff_default_zone :
  forall (idsAreEqual : ID -> ID -> bool) (event : TaxRateModificationEvent),
    let submitted :=
      publish (onVendureBootstrap idsAreEqual (Ok tt) (Ok tt)) (TaxRateModified event) in
    (submitted = Some (Reindex (taxRate_ctx event))
       <-> inDefaultTaxZone idsAreEqual event) /\
    (submitted = None <-> ~ inDefaultTaxZone idsAreEqual event) /\
    forall (checkConnection createIndices : Result unit) (call : ServiceCall),
      publish (onVendureBootstrap idsAreEqual checkConnection createIndices)
        (TaxRateModified event)
      = Some call ->
      call = Reindex (taxRate_ctx event) /\ inDefaultTaxZone idsAreEqual event.
Proof.
  intros idsAreEqual event; simpl.
  unfold taxRateModificationHandler, inDefaultTaxZone.
  destruct (defaultTaxZone (channel (taxRate_ctx event))) as [z|] eqn:Hz.
  - destruct (idsAreEqual (zone_id z) (zone_id (zone (taxRate event)))) eqn:Heq.
    + assert (exists z0, Some z = Some z0 /\
                idsAreEqual (zone_id z0) (zone_id (zone (taxRate event))) = true)
        as Hin by (by exists z).
      split; [|split].
      * done.
      * split; [done|]. intros Hno. by destruct Hno.
      * intros [[]|e] [[]|e'] call; simpl; [|done..].
        unfold taxRateModificationHandler. rewrite Hz, Heq. by intros [= <-].
    + assert (~ exists z0, Some z = Some z0 /\
                idsAreEqual (zone_id z0) (zone_id (zone (taxRate event))) = true)
        as Hout by (intros (z' & [= <-] & Heq'); congruence).
      split; [|split].
      * split; [done|]. intros Hin. by destruct Hout.
      * done.
      * intros [[]|e] [[]|e'] call; simpl; [|done..].
        unfold taxRateModificationHandler. by rewrite Hz, Heq.
  - assert (~ exists z0 : Zone, None = Some z0 /\
              idsAreEqual (zone_id z0) (zone_id (zone (taxRate event))) = true)
      as Hout by (by intros (z' & ? & _)).
    split; [|split].
    + split; [done|]. intros Hin. by destruct Hout.
    + done.
    + intros [[]|e] [[]|e'] call; simpl; [|done..].
      unfold taxRateModificationHandler. by rewrite Hz.
Qed.

(** ** The search job buffer service *)

Import SearchJobBufferService.

Section ServiceProperties.
Context {JobQueueStrategy : Type}.
Variable isInspectable : JobQueueStrategy -> bool.
Context {W : Type}.
Variable h : Collaborators (JobQueueStrategy := JobQueueStrategy) W.

(** Running [p ≫= f] runs [p] and, unless it throws, [f] on its result. *)
Lemma exec_bind {A B : Type} (p : Prog A) (f : A -> Prog B) (w : W) :
  exec h (p ≫= f) w
  = match outcome (exec h p w) with
    | Ok a =>
        let r := exec h (f a) (world (exec h p w)) in
        MkRun (calls (exec h p w) ++ calls r) (outcome r) (world r)
    | Throw e => MkRun (calls (exec h p w)) (Throw e) (world (exec h p w))
    end.
Proof.
  revert w. induction p as [a|b k IH|bs k IH|bs k IH|us k IH]; intros w.
  - simpl. by destruct (exec h (f a) w).
  - change (exec h (AddBuffer b k ≫= f) w)
      with (after (CallAddBuffer (id b)) (exec h (k ≫= f) (doAddBuffer h b w))).
    rewrite IH. simpl. by destruct (outcome _).
  - change (exec h (BufferSize bs k ≫= f) w)
      with (after (CallBufferSize (id <$> bs))
              (exec h (k (doBufferSize h bs w) ≫= f) w)).
    rewrite IH. simpl. by destruct (outcome _).
  - change (exec h (Flush bs k ≫= f) w)
      with (after (CallFlush (id <$> bs))
              match doFlush h bs w with
              | (Ok jobs, w') => exec h (k jobs ≫= f) w'
              | (Throw e, w') => MkRun [] (Throw e) w'
              end).
    simpl. destruct (doFlush h bs w) as [[jobs|e] w']; [|done].
    rewrite IH. by destruct (outcome _).
  - change (exec h (ForkJoin us k ≫= f) w)
      with (after (CallForkJoin us)
              match doForkJoin h us w with
              | (Ok _, w') => exec h (k ≫= f) w'
              | (Throw e, w') => MkRun [] (Throw e) w'
              end).
    simpl. destruct (doForkJoin h us w) as [[[]|e] w']; [|done].
    rewrite IH. by destruct (outcome _).
Qed.

(** C8: [getPendingSearchUpdates] answers 0, without asking the registry,
    when buffering is off; otherwise it asks for the sizes of the two
    buffers once and answers the sum of the two entries of the returned
    map, an entry that is missing counting as 0.  It never changes the
    world. *)
Theorem getPendingSearchUpdates_sums_buffer_sizes :
  forall (options : DefaultSearchPluginInitOptions) (w : W),
    let r := exec h (getPendingSearchUpdates options) w in
    let sizes := doBufferSize h [searchIndexJobBuffer; collectionJobBuffer] w in
    world r = w /\
    match bufferUpdates options with
    | Some true =>
        calls r = [CallBufferSize [id searchIndexJobBuffer; id collectionJobBuffer]] /\
        outcome r = Ok (default 0 (sizes !! id searchIndexJobBuffer)
                        + default 0 (sizes !! id collectionJobBuffer))
    | _ => calls r = [] /\ outcome r = Ok 0
    end.
Proof.
  intros [[[]|]] w; simpl; [|done..].
  split; [done|]. split; [done|].
  unfold sizeOrZero. by destruct (_ !! _), (_ !! _).
Qed.

(** With buffering off the method returns at its first line. *)
Lemma runPendingSearchUpdates_off (options : DefaultSearchPluginInitOptions)
    (strategy : JobQueueStrategy) (w : W) :
  truthy (bufferUpdates options) = false ->
  exec h (runPendingSearchUpdates isInspectable options strategy) w
  = MkRun [] (Ok tt) w.
Proof.
  intros Hoff. unfold runPendingSearchUpdates. by rewrite Hoff.
Qed.

(** The three shapes of a run with buffering on. *)
Lemma runPendingSearchUpdates_on (options : DefaultSearchPluginInitOptions)
    (strategy : JobQueueStrategy) (w : W) :
  truthy (bufferUpdates options) = true ->
  exec h (runPendingSearchUpdates isInspectable options strategy) w
  = after (CallFlush [id collectionJobBuffer])
      match doFlush h [collectionJobBuffer] w with
      | (Throw e, w1) => MkRun [] (Throw e) w1
      | (Ok jobs, w1) =>
          let flushIndex w2 :=
            after (CallFlush [id searchIndexJobBuffer])
              match doFlush h [searchIndexJobBuffer] w2 with
              | (Throw e, w3) => MkRun [] (Throw e) w3
              | (Ok _, w3) => MkRun [] (Ok tt) w3
              end in
          if nonEmpty jobs && isInspectable strategy then
            let us := (fun job => (MkSubscribableJob job strategy, updateOptions)) <$> jobs in
            after (CallForkJoin us)
              match doForkJoin h us w1 with
              | (Throw e, w2) => MkRun [] (Throw e) w2
              | (Ok _, w2) => flushIndex w2
              end
          else flushIndex w1
      end.
Proof.
  intros Hon. unfold runPendingSearchUpdates. rewrite Hon. simpl.
  destruct (doFlush h [collectionJobBuffer] w) as [[jobs|e] w1]; [|done].
  destruct (nonEmpty jobs && isInspectable strategy); simpl.
  - rewrite <- list_fmap_compose.
    destruct (doForkJoin h _ w1) as [[[]|e] w2]; [|done].
    by destruct (doFlush h [searchIndexJobBuffer] w2) as [[?|?] ?].
  - by destruct (doFlush h [searchIndexJobBuffer] w1) as [[?|?] ?].
Qed.

(** C1: with buffering on, the first call of [runPendingSearchUpdates] is
    the flush of the collection-filter buffer.  When that flush returns at
    least one job and the queue strategy is inspectable, the next call
    awaits the updates of every returned job, each with a poll interval of
    500 ms and a timeout of 180000 ms (3 minutes), and the index-update
    buffer is flushed after that wait, as the third and last call.  When the
    strategy is not inspectable (or no job came back) the two flushes are
    the only calls, in that order. *)
Theorem runPendingSearchUpdates_flushes_collections_first :
  forall (options : DefaultSearchPluginInitOptions)
         (strategy : JobQueueStrategy) (w : W),
    truthy (bufferUpdates options) = true ->
    let r := exec h (runPendingSearchUpdates isInspectable options strategy) w in
    let flushCollections := CallFlush [id collectionJobBuffer] in
    let flushIndex := CallFlush [id searchIndexJobBuffer] in
    (exists rest, calls r = flushCollections :: rest) /\
    forall jobs w1, doFlush h [collectionJobBuffer] w = (Ok jobs, w1) ->
      let wait :=
        CallForkJoin
          ((fun job => (MkSubscribableJob job strategy, MkJobUpdateOptions 500 180000))
             <$> jobs) in
      match jobs, isInspectable strategy with
      | _ :: _, true =>
          (forall w2, doForkJoin h
                        ((fun job => (MkSubscribableJob job strategy,
                                      MkJobUpdateOptions 500 180000)) <$> jobs) w1
                      = (Ok tt, w2) ->
             calls r = [flushCollections; wait; flushIndex]) /\
          (forall e w2, doForkJoin h
                        ((fun job => (MkSubscribableJob job strategy,
                                      MkJobUpdateOptions 500 180000)) <$> jobs) w1
                      = (Throw e, w2) ->
             calls r = [flushCollections; wait] /\ outcome r = Throw e)
      | _, _ => calls r = [flushCollections; flushIndex]
      end.
Proof.
  intros options strategy w Hon.
  rewrite (runPendingSearchUpdates_on _ _ _ Hon). cbv zeta.
  split.
  { by eexists. }
  intros jobs w1 Hflush. rewrite Hflush.
  change updateOptions with (MkJobUpdateOptions 500 180000).
  destruct jobs as [|j jobs], (isInspectable strategy); simpl.
  - by destruct (doFlush h [searchIndexJobBuffer] w1) as [[?|?] ?].
  - by destruct (doFlush h [searchIndexJobBuffer] w1) as [[?|?] ?].
  - split.
    + intros w2 Hwait. rewrite Hwait.
      by destruct (doFlush h [searchIndexJobBuffer] w2) as [[?|?] ?].
    + intros e w2 Hwait. by rewrite Hwait.
  - by destruct (doFlush h [searchIndexJobBuffer] w1) as [[?|?] ?].
Qed.

End ServiceProperties.

(** ** The buffer registry *)

Section RegistryProperties.
Import JobQueueService.

Lemma heldBy_add_eq (b : JobBuffer) (j : Job) (w : State) :
  heldBy (add b j w) (id b) = heldBy w (id b) ++ [j].
Proof. unfold heldBy at 1, add; simpl. by rewrite lookup_insert_eq. Qed.

Lemma heldBy_add_ne (b : JobBuffer) (j : Job) (w : State) (k : string) :
  k <> id b -> heldBy (add b j w) k = heldBy w k.
Proof. intros Hne. unfold heldBy, add; simpl. by rewrite lookup_insert_ne. Qed.

Lemma heldBy_add_all (b : JobBuffer) (js : list Job) (w : State) :
  heldBy (foldl (fun w j => add b j w) w js) (id b) = heldBy w (id b) ++ js.
Proof.
  revert w. induction js as [|j js IH]; intros w; simpl.
  - by rewrite app_nil_r.
  - by rewrite IH, heldBy_add_eq, <- app_assoc.
Qed.

(** [List.find] returns the first element that passes the test. *)
Lemma find_first {A : Type} (f : A -> bool) (l : list A) :
  match List.find f l with
  | Some x => exists pre post, l = pre ++ x :: post /\
                               Forall (fun y => f y = false) pre /\ f x = true
  | None => Forall (fun y => f y = false) l
  end.
Proof.
  induction l as [|a l IH]; simpl; [done|].
  destruct (f a) eqn:Hfa.
  - by exists [], l.
  - destruct (List.find f l) as [x|].
    + destruct IH as (pre & post & -> & Hpre & Hx).
      exists (a :: pre), post. by repeat split; [constructor|].
    + by constructor.
Qed.

Lemma submit_all_unregistered (js : list Job) (w : State) :
  buffers w = [] ->
  foldl (fun w j => submit j w) w js = enqueue js w.
Proof.
  revert w. induction js as [|j js IH]; intros [bs hd q] Hb; simpl in *; subst.
  - unfold enqueue; simpl. by rewrite app_nil_r.
  - rewrite IH by done. unfold submit, enqueue; simpl. by rewrite <- app_assoc.
Qed.

Lemma flush_one (b : JobBuffer) (w : State) :
  flush [b] w
  = match collect b (heldBy w (id b)) with
    | Ok out => (Ok out, clear b (enqueue out w))
    | Throw e => (Throw e, w)
    end.
Proof.
  unfold flush; simpl. destruct (collect b _); [|done]. by rewrite app_nil_r.
Qed.

End RegistryProperties.

(** C6: when the [collect] of a buffer raises on the held batch, the flush
    of that buffer returns the error and leaves the registry as it was (the
    held batch is not cleared, nothing reaches the execution queue); the
    caller that awaits the flush gets the error.  After any further [add]s
    the buffer holds the same batch followed by the new jobs, and that is
    the batch the next flush hands to [collect]. *)
Theorem collect_error_keeps_held_batch :
  forall (b : JobBuffer) (w : JobQueueService.State) (e : Error),
    collect b (JobQueueService.heldBy w (id b)) = Throw e ->
    JobQueueService.flush [b] w = (Throw e, w) /\
    (forall (JobQueueStrategy : Type)
            (settle : list (Updates (JobQueueStrategy := JobQueueStrategy)) ->
                      JobQueueService.State -> Result unit * JobQueueService.State),
        exec (registry settle) (SearchJobBufferService.flush [b]) w
        = MkRun [CallFlush [id b]] (Throw e) w) /\
    forall later : list Job,
      let w' := foldl (fun w j => JobQueueService.add b j w) w later in
      let batch := JobQueueService.heldBy w (id b) ++ later in
      JobQueueService.heldBy w' (id b) = batch /\
      JobQueueService.flush [b] w'
      = match collect b batch with
        | Ok out => (Ok out, JobQueueService.clear b (JobQueueService.enqueue out w'))
        | Throw e' => (Throw e', w')
        end.
Proof.
  intros b w e Herr. split; [|split].
  - by rewrite flush_one, Herr.
  - intros JQS settle. simpl. by rewrite flush_one, Herr.
  - intros later w' batch. subst w' batch.
    split; [apply heldBy_add_all|].
    by rewrite flush_one, heldBy_add_all.
Qed.

(** C9: with buffering off [runPendingSearchUpdates] makes no call at all
    (so no flush) and returns normally with the world untouched, whatever
    the collaborators are.  In the registry that [onApplicationBootstrap]
    leaves behind with buffering off, after any sequence of submissions,
    every buffer holds nothing before and after the run, and the run adds
    nothing to the execution queue. *)
Theorem runPendingSearchUpdates_noop_when_buffering_off :
  forall (JobQueueStrategy : Type) (isInspectable : JobQueueStrategy -> bool)
         (options : DefaultSearchPluginInitOptions) (strategy : JobQueueStrategy),
    truthy (bufferUpdates options) = false ->
    (forall (W : Type) (h : Collaborators W) (w : W),
        exec h (runPendingSearchUpdates isInspectable options strategy) w
        = MkRun [] (Ok tt) w) /\
    (forall settle (traffic : list Job),
        let boot :=
          world (exec (registry settle) (onApplicationBootstrap options)
                   JobQueueService.initial) in
        let w := foldl (fun w j => JobQueueService.submit j w) boot traffic in
        let w' :=
          world (exec (registry settle)
                   (runPendingSearchUpdates isInspectable options strategy) w) in
        (forall b, JobQueueService.heldBy w b = []) /\
        (forall b, JobQueueService.heldBy w' b = []) /\
        JobQueueService.executionQueue w' = JobQueueService.executionQueue w).
Proof.
  intros JQS isInspectable options strategy Hoff. split.
  - intros W h w. by apply runPendingSearchUpdates_off.
  - intros settle traffic boot w w'.
    assert (w' = w) as ->.
    { subst w'. by rewrite runPendingSearchUpdates_off. }
    assert (boot = JobQueueService.initial) as Hboot.
    { subst boot. unfold onApplicationBootstrap.
      destruct options as [[[]|]]; simpl in *; done. }
    assert (w = JobQueueService.enqueue traffic JobQueueService.initial) as ->.
    { subst w. rewrite Hboot. by apply submit_all_unregistered. }
    done.
Qed.

(** ** Events end to end *)

Section SubmitProperties.
Import JobQueueService.

Lemma submit_routed (j : Job) (w : State) : Routed j w (submit j w).
Proof.
  unfold submit.
  pose proof (find_first (fun b => accepts b j) (buffers w)) as Hfind.
  destruct (List.find _ (buffers w)) as [b|].
  - destruct Hfind as (pre & post & Hsplit & Hpre & Hb).
    eapply Buffered; eauto using heldBy_add_eq, heldBy_add_ne.
  - by apply Executed.
Qed.

End SubmitProperties.

(** The tax-rate handler calls for a reindex in the default zone and makes
    no call outside it. *)
Lemma tax_rate_handler_decides (idsAreEqual : ID -> ID -> bool)
    (e : TaxRateModificationEvent) :
  (inDefaultTaxZone idsAreEqual e ->
   taxRateModificationHandler idsAreEqual e = Some (Reindex (taxRate_ctx e))) /\
  (~ inDefaultTaxZone idsAreEqual e ->
   taxRateModificationHandler idsAreEqual e = None).
Proof.
  unfold taxRateModificationHandler, inDefaultTaxZone.
  destruct (defaultTaxZone (channel (taxRate_ctx e))) as [z|].
  - destruct (idsAreEqual (zone_id z) (zone_id (zone (taxRate e)))) eqn:Heq.
    + split; [done|]. intros Hno. destruct Hno. by exists z.
    + split; [|done]. intros (z' & [= <-] & Heq'). congruence.
  - split; [|done]. by intros (z' & ? & _).
Qed.

(** C3: every job the three subscriptions produce goes through [submit].
    A catalog event for a Product or ProductVariant submits the index update
    of that one entity; a collection event always submits the index update
    of its variant ids; a tax-rate event submits a full reindex exactly when
    its rate lies in the default tax zone; no other event changes the
    registry.  Each submitted job is then either held by the first
    registered buffer that accepts it, the execution queue being untouched,
    or, when no registered buffer accepts it, appended to the execution
    queue.  In the registry left by [onApplicationBootstrap] the first
    happens when buffering is on and the second when it is off. *)
Theorem event_jobs_go_through_submit :
  forall (idsAreEqual : ID -> ID -> bool) (ev : DomainEvent)
         (w : JobQueueService.State),
    let routed (j : Job) :=
      IndexService.handle idsAreEqual ev w = JobQueueService.submit j w /\
      JobQueueService.Routed j w (IndexService.handle idsAreEqual ev w) /\
      forall (JobQueueStrategy : Type)
             (settle : list (Updates (JobQueueStrategy := JobQueueStrategy)) ->
                       JobQueueService.State -> Result unit * JobQueueService.State)
             (options : DefaultSearchPluginInitOptions),
        let boot :=
          world (exec (registry settle) (onApplicationBootstrap options)
                   JobQueueService.initial) in
        let w' := IndexService.handle idsAreEqual ev boot in
        if truthy (bufferUpdates options)
        then JobQueueService.heldBy w' (id searchIndexJobBuffer) = [j] /\
             JobQueueService.executionQueue w' = []
        else JobQueueService.held w' = ∅ /\
             JobQueueService.executionQueue w' = [j] in
    match ev with
    | CatalogModified e =>
        match entityClass (entity e) with
        | Product | ProductVariant =>
            routed (IndexService.newJob
                      (UpdateIndex (catalog_ctx e) [entity_id (entity e)]))
        | OtherEntity _ => IndexService.handle idsAreEqual ev w = w
        end
    | CollectionModified e =>
        routed (IndexService.newJob
                  (UpdateIndex (collection_ctx e) (productVariantIds e)))
    | TaxRateModified e =>
        (inDefaultTaxZone idsAreEqual e ->
         routed (IndexService.newJob (ReindexAll (taxRate_ctx e)))) /\
        (~ inDefaultTaxZone idsAreEqual e ->
         IndexService.handle idsAreEqual ev w = w)
    end.
Proof.
  intros idsAreEqual ev w.
  assert (forall (call : ServiceCall) (w0 : JobQueueService.State),
            publish (onVendureBootstrap idsAreEqual (Ok tt) (Ok tt)) ev = Some call ->
            IndexService.handle idsAreEqual ev w0
            = JobQueueService.submit (IndexService.jobOf call) w0) as Hsubmit.
  { intros call w0 Hcall. unfold IndexService.handle. by rewrite Hcall. }
  assert (forall call : ServiceCall,
            publish (onVendureBootstrap idsAreEqual (Ok tt) (Ok tt)) ev = Some call ->
            IndexService.handle idsAreEqual ev w
            = JobQueueService.submit (IndexService.jobOf call) w /\
            JobQueueService.Routed (IndexService.jobOf call) w
              (IndexService.handle idsAreEqual ev w) /\
            forall (JobQueueStrategy : Type)
                   (settle : list (Updates (JobQueueStrategy := JobQueueStrategy)) ->
                             JobQueueService.State ->
                             Result unit * JobQueueService.State)
                   (options : DefaultSearchPluginInitOptions),
              let boot :=
                world (exec (registry settle) (onApplicationBootstrap options)
                         JobQueueService.initial) in
              let w' := IndexService.handle idsAreEqual ev boot in
              if truthy (bufferUpdates options)
              then JobQueueService.heldBy w' (id searchIndexJobBuffer)
                   = [IndexService.jobOf call] /\
                   JobQueueService.executionQueue w' = []
              else JobQueueService.held w' = ∅ /\
                   JobQueueService.executionQueue w' = [IndexService.jobOf call])
    as Hrouted.
  { intros call Hcall. split; [by apply Hsubmit|]. split.
    - rewrite (Hsubmit _ _ Hcall). apply submit_routed.
    - intros JQS settle options boot w'. subst w'. rewrite (Hsubmit _ _ Hcall).
      assert (SearchIndexJobBuffer.accepts (IndexService.jobOf call) = true)
        as accepts_index by (by destruct call).
      subst boot. destruct options as [[[]|]]; simpl; try done.
      unfold JobQueueService.submit; simpl. by rewrite accepts_index. }
  cbv zeta. destruct ev as [e|e|e].
  - destruct e as [ctx [cls eid]]; simpl entityClass; simpl entity;
      simpl catalog_ctx; simpl entity_id.
    destruct cls.
    + by apply (Hrouted (UpdateProductOrVariantStart ctx (MkEntity Product eid))).
    + by apply (Hrouted (UpdateProductOrVariantStart ctx (MkEntity ProductVariant eid))).
    + reflexivity.
  - by apply (Hrouted (UpdateVariantsByIdStart (collection_ctx e) (productVariantIds e))).
  - pose proof (tax_rate_handler_decides idsAreEqual e) as [Hin Hout].
    split.
    + intros Hzone. apply (Hrouted (Reindex (taxRate_ctx e))). simpl. by apply Hin.
    + intros Hzone. unfold IndexService.handle. simpl. by rewrite (Hout Hzone).
Qed.

(** ** The index-update reducer *)

Section IndexReducer.
Import SearchIndexJobBuffer.

Lemma allIds_cons (j : Job) (js : list Job) :
  allIds (j :: js) = affectedIds j ++ allIds js.
Proof. done. Qed.

Lemma allIds_app (js1 js2 : list Job) :
  allIds (js1 ++ js2) = allIds js1 ++ allIds js2.
Proof. unfold allIds. by rewrite fmap_app, concat_app. Qed.

Lemma elem_of_allIds (i : ID) (js : list Job) :
  i ∈ allIds js <-> exists j, j ∈ js /\ i ∈ affectedIds j.
Proof.
  induction js as [|j js IH].
  - unfold allIds; simpl. split; [by intros ?%elem_of_nil|].
    by intros (j & ?%elem_of_nil & _).
  - rewrite allIds_cons, elem_of_app, IH. split.
    + intros [Hi|(j' & Hj' & Hi)].
      * exists j. split; [by left|done].
      * exists j'. split; [by right|done].
    + intros (j' & Hj' & Hi). apply elem_of_cons in Hj' as [->|Hj']; eauto.
Qed.









Lemma justified_mono (s1 s2 : list Job) (o : Job) :
  s1 ⊆ s2 -> justified s1 o -> justified s2 o.
Proof.
  intros Hsub Hj i Hi. destruct (Hj i Hi) as (j & Hin & Hctx & Hij).
  exists j. split; [by apply Hsub|done].
Qed.





End IndexReducer.

(** ** The collection-filter reducer *)

Section CollectionReducer.
Import CollectionJobBuffer.










End CollectionReducer.

(** ** A flush among concurrent adds *)

Section AtomicDrainProperties.
Import AtomicDrain.
Variable collect : list Job -> Result (list Job).

Lemma added_app (l1 l2 : list Step) : added (l1 ++ l2) = added l1 ++ added l2.
Proof.
  induction l1 as [|[] l1 IH]; simpl; by rewrite ?IH.
Qed.

(** A step other than a drain keeps the flush in its window; an [Add]
    lengthens what is held and nothing else. *)
Lemma window_step (s0 s s' : Buffer) (batch adds : list Job) (l : Step) :
  Window collect s0 batch adds s -> l <> Drain -> step collect s l = Some s' ->
  Window collect s0 batch (adds ++ added [l]) s'.
Proof.
  intros Hwin Hl Hstep. destruct s as [hd ph q fl].
  destruct Hwin as [Hph Hhd Hfl Hq | out todo Hcol Hph Hhd Hfl Hq
                   | out Hcol Hph Hhd Hfl Hq | e Hcol Hph Hhd Hfl Hq];
    simpl in *; subst; destruct l; simpl in *; try done;
    rewrite ?app_nil_r.
  - (* an add before collect *)
    injection Hstep as <-. by apply BeforeCollect.
  - (* collect *)
    destruct (collect batch) as [out|e] eqn:Hcol; injection Hstep as <-.
    + by eapply WhileSubmitting.
    + by eapply Aborted.
  - (* an add between submissions *)
    injection Hstep as <-. by eapply WhileSubmitting.
  - (* one submission *)
    destruct todo as [|j todo]; [done|]. injection Hstep as <-.
    eapply WhileSubmitting; simpl; eauto. by rewrite <- app_assoc.
  - (* the final clear *)
    destruct todo as [|j todo]; [|done]. injection Hstep as <-.
    rewrite app_nil_r in Hq. by eapply Done.
  - (* an add after the flush *)
    injection Hstep as <-. by eapply Done.
  - injection Hstep as <-. eapply Aborted; simpl; eauto. by rewrite app_assoc.
Qed.

Lemma window_run (s0 : Buffer) (batch : list Job) (ls : list Step) :
  forall (s s' : Buffer) (adds : list Job),
    Window collect s0 batch adds s -> Drain ∉ ls -> run collect s ls = Some s' ->
    Window collect s0 batch (adds ++ added ls) s'.
Proof.
  induction ls as [|l ls IH]; intros s s' adds Hwin Hnodrain Hrun; simpl in Hrun.
  - injection Hrun as <-. by rewrite app_nil_r.
  - destruct (step collect s l) as [s1|] eqn:Hstep; [|done].
    assert (l <> Drain) as Hl by (intros ->; apply Hnodrain; by left).
    assert (Drain ∉ ls) as Hls by (intros ?; apply Hnodrain; by right).
    pose proof (window_step _ _ _ _ _ _ Hwin Hl Hstep) as Hwin1.
    specialize (IH _ _ _ Hwin1 Hls Hrun).
    replace (adds ++ added (l :: ls)) with ((adds ++ added [l]) ++ added ls); [done|].
    rewrite <- app_assoc. f_equal. by destruct l.
Qed.

(** C2: take one flush of a buffer, from its drain on, under any schedule
    of concurrent [add]s and of the flush's own later steps.  The batch the
    flush collects and clears is exactly what the buffer held at the drain:
    no job added after the drain is part of it.  The jobs added during the
    flush are all held by the buffer, in arrival order, and so start the
    next batch (behind the returned batch when [collect] raised). *)
Theorem flush_drains_atomically :
  forall (s0 : Buffer) (ls : list Step) (s : Buffer),
    phase s0 = Idle -> Drain ∉ ls ->
    run collect s0 (Drain :: ls) = Some s ->
    Window collect s0 (held s0) (added ls) s.
Proof.
  intros s0 ls s Hidle Hnodrain Hrun. simpl in Hrun.
  unfold step in Hrun. rewrite Hidle in Hrun.
  change (added ls) with ([] ++ added ls).
  eapply window_run; [|done..].
  by apply BeforeCollect.
Qed.

(** No schedule loses or duplicates a job: the ledger grows by exactly the
    added jobs, in order. *)
Lemma ledger_step (s s' : Buffer) (l : Step) :
  step collect s l = Some s' -> ledger s' = ledger s ++ added [l].
Proof.
  destruct s as [hd ph q fl]. unfold step, ledger, inFlight; simpl.
  destruct l as [j| | | |], ph as [|b|b [|j' todo]]; simpl; intros Hstep; try done;
    try (injection Hstep as <-; simpl;
         rewrite ?app_nil_r, <- ?app_assoc; done).
  destruct (collect b); injection Hstep as <-; simpl.
  - rewrite concat_app, app_nil_r, <- app_assoc. simpl. by rewrite app_nil_r.
  - by rewrite app_nil_r.
Qed.

Lemma ledger_run (ls : list Step) (s s' : Buffer) :
  run collect s ls = Some s' -> ledger s' = ledger s ++ added ls.
Proof.
  revert s. induction ls as [|l ls IH]; intros s Hrun; simpl in Hrun.
  - injection Hrun as <-. by rewrite app_nil_r.
  - destruct (step collect s l) as [s1|] eqn:Hstep; [|done].
    rewrite (IH _ Hrun), (ledger_step _ _ _ Hstep), <- app_assoc.
    f_equal. by destruct l.
Qed.

(** Submitting what is left and clearing ends the flush. *)
Lemma run_submissions (todo hd batch q : list Job) (fl : list (list Job)) :
  run collect (MkBuffer hd (Submitting batch todo) q fl)
    (replicate (length todo) Submit ++ [Clear])
  = Some (MkBuffer hd Idle (q ++ todo) fl).
Proof.
  revert q. induction todo as [|j todo IH]; intros q; simpl.
  - by rewrite app_nil_r.
  - rewrite IH. by rewrite <- app_assoc.
Qed.

(** Without a producer in between, the steps do what the coordinator's
    [flush] does in one go. *)
Lemma uninterrupted_flush (s0 : Buffer) (out : list Job) :
  phase s0 = Idle -> collect (held s0) = Ok out ->
  run collect s0 (uninterrupted (length out))
  = Some (MkBuffer [] Idle (queue s0 ++ out) (flushed s0 ++ [held s0])).
Proof.
  intros Hidle Hcol. destruct s0 as [hd ph q fl]; simpl in *; subst.
  unfold uninterrupted. simpl. rewrite Hcol. apply run_submissions.
Qed.

Lemma uninterrupted_abort (s0 : Buffer) (e : Error) :
  phase s0 = Idle -> collect (held s0) = Throw e ->
  run collect s0 [Drain; Collect]
  = Some (MkBuffer (held s0) Idle (queue s0) (flushed s0)).
Proof.
  intros Hidle Hcol. destruct s0 as [hd ph q fl]; simpl in *; subst.
  simpl. by rewrite Hcol, app_nil_r.
Qed.

End AtomicDrainProperties.

Lemma uninterrupted_flush_is_flush (b : JobBuffer) (w : JobQueueService.State)
    (out : list Job) :
  collect b (JobQueueService.heldBy w (id b)) = Ok out ->
  let s0 := AtomicDrain.MkBuffer (JobQueueService.heldBy w (id b)) AtomicDrain.Idle
              (JobQueueService.executionQueue w) [] in
  let w' := (JobQueueService.flush [b] w).2 in
  AtomicDrain.run (collect b) s0 (AtomicDrain.uninterrupted (length out))
  = Some (AtomicDrain.MkBuffer (JobQueueService.heldBy w' (id b)) AtomicDrain.Idle
            (JobQueueService.executionQueue w') [JobQueueService.heldBy w (id b)]).
Proof.
  intros Hcol s0 w'. subst s0 w'.
  rewrite uninterrupted_flush by done. rewrite flush_one, Hcol. simpl.
  unfold JobQueueService.heldBy at 2; simpl. by rewrite lookup_insert_eq.
Qed.

(** ** The statements at work on sample data *)

Section Samples.
Import Examples.

Example product_event_updates_index :
  publish (onVendureBootstrap sameId (Ok tt) (Ok tt))
    (CatalogModified (MkCatalogEvent english (MkEntity Product (IdNum 12))))
  = Some (UpdateProductOrVariantStart english (MkEntity Product (IdNum 12))).
Proof. reflexivity. Qed.

Example facet_event_is_ignored :
  publish (onVendureBootstrap sameId (Ok tt) (Ok tt))
    (CatalogModified (MkCatalogEvent english (MkEntity (OtherEntity "Facet") (IdNum 3))))
  = None.
Proof. reflexivity. Qed.

Example tax_rate_in_default_zone_reindexes :
  publish (onVendureBootstrap sameId (Ok tt) (Ok tt))
    (TaxRateModified (MkTaxRateEvent english (rateIn 7)))
  = Some (Reindex english).
Proof. reflexivity. Qed.

Example tax_rate_in_other_zone_is_ignored :
  publish (onVendureBootstrap sameId (Ok tt) (Ok tt))
    (TaxRateModified (MkTaxRateEvent english (rateIn 8)))
  = None.
Proof. reflexivity. Qed.

Example pending_on_busy :
  outcome (exec (registry settles) (getPendingSearchUpdates buffering) busy) = Ok 3.
Proof. vm_compute. reflexivity. Qed.

Example busy_holds :
  JobQueueService.heldBy busy CollectionJobBuffer.bufferId = [child; parent] /\
  JobQueueService.heldBy busy SearchIndexJobBuffer.bufferId = [update english [5]] /\
  JobQueueService.executionQueue busy = [].
Proof. vm_compute. done. Qed.

(** Update requests for 1, 2, 1, 3 become one job for 1, 2, 3. *)
Example index_reducer_1213 :
  SearchIndexJobBuffer.collect
    [update english [1]; update english [2]; update english [1]; update english [3]]
  = Ok [update english [1; 2; 3]].
Proof. vm_compute. reflexivity. Qed.

Example index_reducer_two_contexts :
  SearchIndexJobBuffer.collect
    [update english [1; 2]; update german [2; 3]; update english [3; 4]; update german [9]]
  = Ok [update english [1; 2; 4]; update german [3; 9]].
Proof. vm_compute. reflexivity. Qed.

(** A reindex-everything job among single-id jobs is all that remains. *)
Example index_reducer_mixed :
  SearchIndexJobBuffer.collect
    [update english [1]; reindex german; update english [2]]
  = Ok [reindex german].
Proof. vm_compute. reflexivity. Qed.

(** The child was requested first and twice; the parent still goes first. *)
Example collection_reducer_parent_first :
  CollectionJobBuffer.collect [child; parent; child] = Ok [parent; child].
Proof. vm_compute. reflexivity. Qed.



End Samples.

(** On the busy registry, under an inspectable strategy whose jobs settle,
    the run flushes the collection buffer, awaits the parent's and the
    child's job, and then flushes the index buffer. *)
Lemma runPendingSearchUpdates_flushes_collections_first_witness :
  calls (exec (registry Examples.settles)
           (runPendingSearchUpdates Examples.inspectable Examples.buffering true)
           Examples.busy)
  = [CallFlush [id collectionJobBuffer];
     CallForkJoin
       [(MkSubscribableJob Examples.parent true, MkJobUpdateOptions 500 180000);
        (MkSubscribableJob Examples.child true, MkJobUpdateOptions 500 180000)];
     CallFlush [id searchIndexJobBuffer]].
Proof.
  assert (doFlush (registry Examples.settles) [collectionJobBuffer] Examples.busy
          = (Ok [Examples.parent; Examples.child],
             (JobQueueService.flush [collectionJobBuffer] Examples.busy).2)) as Hflush.
  { vm_compute. reflexivity. }
  pose proof (proj2 (runPendingSearchUpdates_flushes_collections_first
                       Examples.inspectable (registry Examples.settles)
                       Examples.buffering true Examples.busy eq_refl)
                _ _ Hflush) as Hrun.
  cbv beta iota zeta delta [Examples.inspectable fmap list_fmap] in Hrun.
  exact (proj1 Hrun _ eq_refl).
Defined.

(** Two producers add while the flush of [twoHeld] runs: the flush collects
    the two jobs it drained, and the two new jobs wait in the buffer. *)
Lemma flush_drains_atomically_witness :
  AtomicDrain.Window SearchIndexJobBuffer.collect Examples.twoHeld
    [Examples.update Examples.english [1]; Examples.update Examples.english [2]]
    [Examples.update Examples.english [3]; Examples.update Examples.german [4]]
    {| AtomicDrain.held :=
         [Examples.update Examples.english [3]; Examples.update Examples.german [4]];
       AtomicDrain.phase := AtomicDrain.Idle;
       AtomicDrain.queue := [Examples.update Examples.english [1; 2]];
       AtomicDrain.flushed :=
         [[Examples.update Examples.english [1]; Examples.update Examples.english [2]]] |}.
Proof.
  apply (flush_drains_atomically SearchIndexJobBuffer.collect
           Examples.twoHeld Examples.racing).
  - reflexivity.
  - unfold Examples.racing. intros Hin.
    repeat (apply elem_of_cons in Hin as [Hin|Hin]; [discriminate Hin|]).
    by apply elem_of_nil in Hin.
  - vm_compute. reflexivity.
Defined.

(** The reducer of [failing] raises on the one job it holds: the flush
    returns the error and [stuck] stays as it is. *)
Lemma collect_error_keeps_held_batch_witness :
  JobQueueService.flush [Examples.failing] Examples.stuck
  = (Throw (MkError "reducer failed"), Examples.stuck).
Proof.
  apply (collect_error_keeps_held_batch Examples.failing Examples.stuck).
  vm_compute. reflexivity.
Defined.

(** Without the option nothing is called. *)
Lemma runPendingSearchUpdates_noop_when_buffering_off_witness :
  exec (registry Examples.settles)
    (runPendingSearchUpdates Examples.inspectable Examples.notBuffering true)
    Examples.busy
  = MkRun [] (Ok tt) Examples.busy.
Proof.
  apply (runPendingSearchUpdates_noop_when_buffering_off bool
           Examples.inspectable Examples.notBuffering true).
  reflexivity.
Defined.


(** * Further properties *)

(** ** The search job buffer service, continued *)

Section MoreServiceProperties.
Context {JobQueueStrategy : Type}.
Variable isInspectable : JobQueueStrategy -> bool.
Context {W : Type}.
Variable h : Collaborators (JobQueueStrategy := JobQueueStrategy) W.

(** X1: when the flush of the collection-filter buffer throws,
    [runPendingSearchUpdates] throws the same error right away: it neither
    waits nor flushes the index-update buffer, and the world is as the
    failed flush left it. *)
Theorem runPendingSearchUpdates_stops_when_collection_flush_fails :
  forall (options : DefaultSearchPluginInitOptions) (strategy : JobQueueStrategy)
         (w w1 : W) (e : Error),
    truthy (bufferUpdates options) = true ->
    doFlush h [collectionJobBuffer] w = (Throw e, w1) ->
    exec h (runPendingSearchUpdates isInspectable options strategy) w
    = MkRun [CallFlush [id collectionJobBuffer]] (Throw e) w1.
Proof.
  intros options strategy w w1 e Hon Hflush.
  rewrite (runPendingSearchUpdates_on _ _ _ _ _ Hon), Hflush. reflexivity.
Qed.

(** X2: with buffering on, a run of [runPendingSearchUpdates] that returns
    normally has flushed both buffers: its first call is the flush of the
    collection-filter buffer, its last call the flush of the index-update
    buffer, and at most one call (the wait) lies between them. *)
Theorem runPendingSearchUpdates_returns_only_after_both_flushes :
  forall (options : DefaultSearchPluginInitOptions) (strategy : JobQueueStrategy)
         (w : W),
    truthy (bufferUpdates options) = true ->
    outcome (exec h (runPendingSearchUpdates isInspectable options strategy) w) = Ok tt ->
    exists between,
      calls (exec h (runPendingSearchUpdates isInspectable options strategy) w)
      = CallFlush [id collectionJobBuffer] :: between
        ++ [CallFlush [id searchIndexJobBuffer]] /\
      (length between <= 1)%nat.
Proof.
  intros options strategy w Hon.
  rewrite (runPendingSearchUpdates_on _ _ _ _ _ Hon).
  destruct (doFlush h [collectionJobBuffer] w) as [[jobs|e] w1]; [|done].
  cbv zeta. destruct (nonEmpty jobs && isInspectable strategy).
  - destruct (doForkJoin h _ w1) as [[[]|e] w2]; [|done].
    destruct (doFlush h [searchIndexJobBuffer] w2) as [[more|e] w3]; [|done].
    intros _. eexists [_]. split; [reflexivity|simpl; lia].
  - destruct (doFlush h [searchIndexJobBuffer] w1) as [[more|e] w3]; [|done].
    intros _. exists []. split; [reflexivity|simpl; lia].
Qed.

(** X3: whatever the options and the collaborators,
    [runPendingSearchUpdates] makes at most three calls, and each of them is
    a flush or the wait: it never registers a buffer and never asks for
    buffer sizes. *)
Theorem runPendingSearchUpdates_only_flushes_and_waits :
  forall (options : DefaultSearchPluginInitOptions) (strategy : JobQueueStrategy)
         (w : W),
    let r := exec h (runPendingSearchUpdates isInspectable options strategy) w in
    (length (calls r) <= 3)%nat /\
    Forall (fun c => CallKind.isFlushOrForkJoin c = true) (calls r).
Proof.
  intros options strategy w. cbv zeta.
  destruct (truthy (bufferUpdates options)) eqn:Hon.
  - rewrite (runPendingSearchUpdates_on _ _ _ _ _ Hon).
    destruct (doFlush h [collectionJobBuffer] w) as [[jobs|e] w1];
      [|split; [simpl; lia|by repeat constructor]].
    cbv zeta. destruct (nonEmpty jobs && isInspectable strategy).
    + destruct (doForkJoin h _ w1) as [[[]|e] w2];
        [|split; [simpl; lia|by repeat constructor]].
      destruct (doFlush h [searchIndexJobBuffer] w2) as [[more|e] w3];
        (split; [simpl; lia|by repeat constructor]).
    + destruct (doFlush h [searchIndexJobBuffer] w1) as [[more|e] w3];
        (split; [simpl; lia|by repeat constructor]).
  - rewrite (runPendingSearchUpdates_off _ _ _ _ _ Hon).
    split; [simpl; lia|constructor].
Qed.

(** X4: the three methods agree on the switch: [onApplicationBootstrap]
    registers the two buffers (the index-update buffer first) exactly when
    [bufferUpdates] is true, and exactly then do [getPendingSearchUpdates]
    and [runPendingSearchUpdates] call the job queue at all. *)
Theorem buffering_switch_is_read_the_same_way :
  forall (options : DefaultSearchPluginInitOptions) (strategy : JobQueueStrategy)
         (w : W),
    let registered := calls (exec h (onApplicationBootstrap options) w) in
    (registered = [CallAddBuffer (id searchIndexJobBuffer);
                   CallAddBuffer (id collectionJobBuffer)]
     \/ registered = []) /\
    (registered = [] <-> bufferUpdates options <> Some true) /\
    (registered = [] <-> calls (exec h (getPendingSearchUpdates options) w) = []) /\
    (registered = []
     <-> calls (exec h (runPendingSearchUpdates isInspectable options strategy) w) = []).
Proof.
  intros [[[]|]] strategy w; cbv zeta.
  - split; [by left|]. split; [done|]. split; [done|].
    rewrite (runPendingSearchUpdates_on _ _ (MkOptions (Some true)) _ _ eq_refl). done.
  - split; [by right|]. by repeat split.
  - split; [by right|]. by repeat split.
Qed.

End MoreServiceProperties.

(** ** The event subscriptions, continued *)

(** X5: when [checkConnection] or [createIndicesIfNotExists] throws,
    [onVendureBootstrap] subscribes to nothing: no event of any of the three
    kinds leads to a call on the index services. *)
Theorem failed_bootstrap_handles_no_event :
  forall (idsAreEqual : ID -> ID -> bool) (e : Error)
         (other : Result unit) (ev : DomainEvent),
    publish (onVendureBootstrap idsAreEqual (Throw e) other) ev = None /\
    publish (onVendureBootstrap idsAreEqual other (Throw e)) ev = None.
Proof.
  intros idsAreEqual e [[]|e'] ev; by split.
Qed.

(** X6: a call made for an event carries the request context of that event
    and is of the kind of that event: a single-entity update of the event's
    entity for a catalog event, an update of the event's variant ids for a
    collection event, a reindex for a tax-rate event. *)
Theorem calls_keep_the_context_of_their_event :
  forall (idsAreEqual : ID -> ID -> bool) (checkConnection createIndices : Result unit)
         (ev : DomainEvent) (call : ServiceCall),
    publish (onVendureBootstrap idsAreEqual checkConnection createIndices) ev
    = Some call ->
    EventContext.ofCall call = EventContext.ofEvent ev /\
    match ev with
    | CatalogModified e => call = UpdateProductOrVariantStart (catalog_ctx e) (entity e)
    | CollectionModified e =>
        call = UpdateVariantsByIdStart (collection_ctx e) (productVariantIds e)
    | TaxRateModified e => call = Reindex (taxRate_ctx e)
    end.
Proof.
  intros idsAreEqual [[]|e1] [[]|e2] ev call; simpl; try done.
  destruct ev as [e|e|e]; simpl.
  - unfold catalogModificationHandler.
    destruct (_ || _); [|done]. by intros [= <-].
  - unfold collectionModificationHandler. by intros [= <-].
  - unfold taxRateModificationHandler.
    destruct (match defaultTaxZone _ with Some _ => _ | None => _ end); [|done].
    by intros [= <-].
Qed.

(** ** The console logger *)

Section LoggerProperties.
Import DefaultLogger.
Variable LogLevel : LogLevelEnum.
Variable chalk : Chalk.
Context {Obj : Type}.
Variable stringify : Obj -> string.

Notation error := (error LogLevel chalk stringify).
Notation warn := (warn LogLevel chalk stringify).
Notation info := (info LogLevel chalk stringify).
Notation verbose := (verbose LogLevel chalk stringify).
Notation debug := (debug LogLevel chalk stringify).

Lemma logMessage_writes (lg : Logger) (now prefix message : string)
    (context : option string) :
  logMessage chalk lg now prefix message context <> [].
Proof. done. Qed.

Lemma logMessage_withLevel (lg : Logger) (l : Z) (now prefix message : string)
    (context : option string) :
  logMessage chalk (withLevel lg l) now prefix message context
  = logMessage chalk lg now prefix message context.
Proof. done. Qed.

(** X7: raising the level never silences a message: what any of the five
    methods writes at one level it writes unchanged at every higher
    level. *)
Theorem raising_the_level_keeps_every_message :
  forall (lg : Logger) (l l' : Z) (now : string) (message : Message Obj)
         (context trace : option string),
    l <= l' ->
    (error (withLevel lg l) now message context trace <> [] ->
     error (withLevel lg l') now message context trace
     = error (withLevel lg l) now message context trace) /\
    (warn (withLevel lg l) now message context <> [] ->
     warn (withLevel lg l') now message context
     = warn (withLevel lg l) now message context) /\
    (info (withLevel lg l) now message context <> [] ->
     info (withLevel lg l') now message context
     = info (withLevel lg l) now message context) /\
    (verbose (withLevel lg l) now message context <> [] ->
     verbose (withLevel lg l') now message context
     = verbose (withLevel lg l) now message context) /\
    (debug (withLevel lg l) now message context <> [] ->
     debug (withLevel lg l') now message context
     = debug (withLevel lg l) now message context).
Proof.
  intros lg l l' now message context trace Hle.
  unfold DefaultLogger.error, DefaultLogger.warn, DefaultLogger.info,
    DefaultLogger.verbose, DefaultLogger.debug; simpl.
  repeat split.
  - destruct (bool_decide (context = Some "ExceptionsHandler")); simpl.
    + destruct (Z.ltb_spec l (Verbose LogLevel)); [done|].
      destruct (Z.ltb_spec l' (Verbose LogLevel)); [lia|].
      destruct (Z.geb_spec l (Error LogLevel)); [|done].
      destruct (Z.geb_spec l' (Error LogLevel)); [done|lia].
    + destruct (Z.geb_spec l (Error LogLevel)); [|done].
      destruct (Z.geb_spec l' (Error LogLevel)); [done|lia].
  - destruct (Z.geb_spec l (Warn LogLevel)); [|done].
    destruct (Z.geb_spec l' (Warn LogLevel)); [done|lia].
  - destruct (Z.geb_spec l (Info LogLevel)); [|done].
    destruct (Z.geb_spec l' (Info LogLevel)); [done|lia].
  - destruct (Z.geb_spec l (Verbose LogLevel)); [|done].
    destruct (Z.geb_spec l' (Verbose LogLevel)); [done|lia].
  - destruct (Z.geb_spec l (Debug LogLevel)); [|done].
    destruct (Z.geb_spec l' (Debug LogLevel)); [done|lia].
Qed.

(** X8: an error logged under the context [ExceptionsHandler] is dropped
    exactly when the level is below Verbose or below Error; under any other
    context an error is dropped exactly when the level is below Error. *)
Theorem exceptions_handler_errors_need_verbose :
  forall (lg : Logger) (now : string) (message : Message Obj)
         (context trace : option string),
    error lg now message context trace = []
    <-> (context = Some "ExceptionsHandler" /\ level lg < Verbose LogLevel)
        \/ level lg < Error LogLevel.
Proof.
  intros lg now message context trace. unfold DefaultLogger.error.
  destruct (bool_decide_reflect (context = Some "ExceptionsHandler")) as [Hctx|Hctx];
    simpl.
  - destruct (Z.ltb_spec (level lg) (Verbose LogLevel)).
    + split; [by left|done].
    + destruct (Z.geb_spec (level lg) (Error LogLevel)).
      * split; [done|]. intros [[_ ?]|?]; lia.
      * split; [by right|done].
  - destruct (Z.geb_spec (level lg) (Error LogLevel)).
    + split; [done|]. intros [[? _]|?]; [done|lia].
    + split; [by right|done].
Qed.

(** X9: when the five levels are ordered Error, Warn, Info, Verbose, Debug
    with Info strictly below Verbose, a logger constructed without options
    writes errors, warnings and info messages, drops verbose and debug
    messages, and also drops errors logged under [ExceptionsHandler]. *)
Theorem default_logger_logs_at_info :
  forall (now : string) (message : Message Obj) (context trace : option string),
    Error LogLevel <= Warn LogLevel -> Warn LogLevel <= Info LogLevel ->
    Info LogLevel < Verbose LogLevel -> Verbose LogLevel <= Debug LogLevel ->
    let lg := new LogLevel None in
    (context <> Some "ExceptionsHandler" -> error lg now message context trace <> []) /\
    error lg now message (Some "ExceptionsHandler") trace = [] /\
    warn lg now message context <> [] /\
    info lg now message context <> [] /\
    verbose lg now message context = [] /\
    debug lg now message context = [].
Proof.
  intros now message context trace H1 H2 H3 H4 lg.
  unfold DefaultLogger.error, DefaultLogger.warn, DefaultLogger.info,
    DefaultLogger.verbose, DefaultLogger.debug; simpl.
  repeat split.
  - intros Hctx. rewrite bool_decide_eq_false_2 by done. simpl.
    destruct (Z.geb_spec (Info LogLevel) (Error LogLevel)); [done|lia].
  - destruct (Z.ltb_spec (Info LogLevel) (Verbose LogLevel)); [done|lia].
  - destruct (Z.geb_spec (Info LogLevel) (Warn LogLevel)); [done|lia].
  - destruct (Z.geb_spec (Info LogLevel) (Info LogLevel)); [done|lia].
  - destruct (Z.geb_spec (Info LogLevel) (Verbose LogLevel)); [lia|done].
  - destruct (Z.geb_spec (Info LogLevel) (Debug LogLevel)); [lia|done].
Qed.

(** X10: when [originalLogLevel] has never been set,
    [hideNestBoostrapLogs] followed by [restoreOriginalLogLevel] leaves the
    active logger as it was, whatever logger it is and whatever its
    level. *)
Theorem hide_then_restore_keeps_the_logger :
  forall s : Statics,
    originalLogLevel s = None ->
    logger (restoreOriginalLogLevel (hideNestBoostrapLogs LogLevel s)) = logger s.
Proof.
  intros [[[l ts dc]|name] orig] Horig; simpl in *; subst; [|done].
  unfold hideNestBoostrapLogs, restoreOriginalLogLevel; simpl.
  destruct (Z.eqb_spec l (Info LogLevel)) as [->|Hne]; simpl; done.
Qed.

(** X11: between the two calls the bootstrap logs are hidden: when Warn is
    below Info and the active [DefaultLogger] stands at Info,
    [hideNestBoostrapLogs] makes it drop info messages while it still
    writes warnings. *)
Theorem hidden_bootstrap_logs :
  forall (lg : Logger) (orig : option Z) (now : string) (message : Message Obj)
         (context : option string),
    Warn LogLevel < Info LogLevel ->
    level lg = Info LogLevel ->
    exists lg',
      logger (hideNestBoostrapLogs LogLevel (MkStatics (IsDefaultLogger lg) orig))
      = IsDefaultLogger lg' /\
      info lg' now message context = [] /\
      warn lg' now message context <> [].
Proof.
  intros lg orig now message context Hlt Hlevel.
  unfold hideNestBoostrapLogs; simpl. rewrite Hlevel, Z.eqb_refl; simpl.
  eexists. split; [reflexivity|].
  unfold DefaultLogger.info, DefaultLogger.warn; simpl.
  destruct (Z.geb_spec (Warn LogLevel) (Info LogLevel)); [lia|].
  destruct (Z.geb_spec (Warn LogLevel) (Warn LogLevel)); [done|lia].
Qed.

(** X12: [restoreOriginalLogLevel] never clears [originalLogLevel].  After
    one hide and restore at Info, a level the user sets afterwards does not
    survive the next hide and restore: unless it is Info, the second restore
    puts the logger back to Info. *)
Theorem second_restore_resets_the_level_to_info :
  forall (lg : Logger) (l : Z),
    level lg = Info LogLevel ->
    l <> Info LogLevel ->
    let once :=
      restoreOriginalLogLevel
        (hideNestBoostrapLogs LogLevel (MkStatics (IsDefaultLogger lg) None)) in
    let twice :=
      restoreOriginalLogLevel (hideNestBoostrapLogs LogLevel (setLevel once l)) in
    activeLevel (setLevel once l) = Some l /\
    activeLevel twice = Some (Info LogLevel).
Proof.
  intros [lv ts dc] l Hlevel Hl once twice. simpl in Hlevel. subst lv once twice.
  unfold hideNestBoostrapLogs, restoreOriginalLogLevel, setLevel, activeLevel; simpl.
  rewrite Z.eqb_refl; simpl.
  destruct (Z.eqb_spec l (Info LogLevel)); done.
Qed.

(** X13: an empty context is treated like an absent one, and an empty
    trace like an absent one: the five methods write the same either
    way. *)
Theorem empty_context_and_trace_count_as_absent :
  forall (lg : Logger) (now : string) (message : Message Obj)
         (context : option string),
    error lg now message (Some "") (Some "") = error lg now message None None /\
    error lg now message context (Some "") = error lg now message context None /\
    warn lg now message (Some "") = warn lg now message None /\
    info lg now message (Some "") = info lg now message None /\
    verbose lg now message (Some "") = verbose lg now message None /\
    debug lg now message (Some "") = debug lg now message None.
Proof. intros. by repeat split. Qed.

End LoggerProperties.

(** ** Error results *)

Section ErrorResultProperties.
Import GraphQLErrors.

Lemma errorTypeNames_list :
  errorTypeNames = list_to_set (typename <$> allClasses).
Proof. reflexivity. Qed.

Lemma allClasses_complete (c : ErrorClass) : c ∈ allClasses.
Proof. unfold allClasses. destruct c; set_solver. Qed.

(** X14: the set [errorTypeNames] that [isGraphQLError] consults holds
    exactly the [__typename]s of the error classes of the file, and no two
    classes share a [__typename]. *)
Theorem error_type_names_are_the_class_names :
  (forall n : string, n ∈ errorTypeNames <-> exists c, typename c = n) /\
  (forall c1 c2, typename c1 = typename c2 -> c1 = c2).
Proof.
  split.
  - intros n. rewrite errorTypeNames_list, elem_of_list_to_set, list_elem_of_fmap.
    split.
    + intros (c & -> & _). by exists c.
    + intros (c & <-). exists c. split; [done|apply allClasses_complete].
  - intros c1 c2. destruct c1, c2; simpl; intros Heq; first [reflexivity|discriminate Heq].
Qed.

(** X15: for every error class the [errorCode] is the upper-snake-case form
    of the [__typename], the [message] is the [errorCode] again, and no two
    classes share an [errorCode]. *)
Theorem error_codes_follow_the_type_names :
  (forall c, errorCode c = upperSnake (typename c) /\ message c = errorCode c) /\
  (forall c1 c2, errorCode c1 = errorCode c2 -> c1 = c2).
Proof.
  split.
  - intros c. destruct c; split; reflexivity.
  - intros c1 c2. destruct c1, c2; simpl; intros Heq; first [reflexivity|discriminate Heq].
Qed.

Lemma resolvers_use_success_types :
  Forall (fun entry => exists success,
            success ∈ successTypes /\ entry.2 = resolveType success)
    shopErrorOperationTypeResolvers.
Proof.
  unfold shopErrorOperationTypeResolvers, successTypes.
  repeat constructor; simpl; eexists; (split; [|reflexivity]); set_solver.
Qed.

Lemma success_types_are_no_error_names (success : string) :
  success ∈ successTypes -> has errorTypeNames (Some success) = false.
Proof.
  unfold successTypes. rewrite !elem_of_cons, elem_of_nil.
  intros [->|[->|[->|[]]]]; by vm_compute.
Qed.

Lemma class_names_are_error_names (c : ErrorClass) :
  has errorTypeNames (Some (typename c)) = true.
Proof.
  simpl. apply bool_decide_eq_true_2.
  rewrite errorTypeNames_list, elem_of_list_to_set, list_elem_of_fmap.
  exists c. split; [done|apply allClasses_complete].
Qed.

(** X16: every [__resolveType] of [shopErrorOperationTypeResolvers] has a
    success type among Order, CurrentUser and Success, which is not an error
    name.  It answers the own [__typename] for an instance of any error
    class and for a plain object that carries such a [__typename], the
    success type for any other non-null value, [undefined] for a bare
    [ErrorResult], and it throws on [null] and [undefined]. *)
Theorem resolvers_tell_errors_from_success :
  forall (operation : string) (resolve : Value -> Result (option string)),
    (operation, resolve) ∈ shopErrorOperationTypeResolvers ->
    exists success,
      success ∈ successTypes /\
      (success ∉ errorTypeNames) /\
      (forall c, resolve (newError c) = Ok (Some (typename c)) /\ typename c <> success) /\
      (forall c, resolve (Other (Some (typename c))) = Ok (Some (typename c))) /\
      (forall t, has errorTypeNames t = false -> resolve (Other t) = Ok (Some success)) /\
      resolve (ErrorInstance None) = Ok None /\
      resolve Nullish = Throw typeError.
Proof.
  intros operation resolve Hin.
  pose proof resolvers_use_success_types as Hall.
  rewrite Forall_forall in Hall.
  destruct (Hall _ Hin) as (success & Hsuccess & Hresolve). simpl in Hresolve. subst resolve.
  pose proof (success_types_are_no_error_names success Hsuccess) as Hno.
  exists success. split; [done|].
  assert (success ∉ errorTypeNames) as Hnotin.
  { simpl in Hno. by apply bool_decide_eq_false_1 in Hno. }
  split; [done|]. split; [|split; [|split; [|split]]].
  - intros c. split.
    + unfold resolveType, newError, isGraphQLError. reflexivity.
    + intros Heq. pose proof (class_names_are_error_names c) as Hc.
      rewrite Heq in Hc. congruence.
  - intros c. unfold resolveType, isGraphQLError.
    by rewrite class_names_are_error_names.
  - intros t Ht. unfold resolveType, isGraphQLError. by rewrite Ht.
  - reflexivity.
  - reflexivity.
Qed.

End ErrorResultProperties.

(** ** The collection filters *)

Section CollectionFilterProperties.
Import CollectionFilters.

(** X17: the variant-name filter returns for the four operators contains,
    doesNotContain, startsWith and endsWith and for no other; for any other
    operator it throws "<operator> is not a valid operator", and by then it
    has already added the join on the translations to the builder. *)
Theorem variant_name_filter_rejects_unknown_operators :
  forall (qb : QueryBuilder) (args : VariantNameArgs),
    ((variantNameApply qb args).2 = Ok tt <-> operator args ∈ validOperators) /\
    ((operator args ∉ validOperators) ->
     variantNameApply qb args
     = (qb ++ [LeftJoin "productVariant.translations" "translation"],
        Throw (MkError (operator args +:+ " is not a valid operator")))).
Proof.
  intros qb [op tm]. unfold variantNameApply, validOperators; simpl.
  rewrite !elem_of_cons, elem_of_nil.
  repeat case_bool_decide; simpl; subst; split; try tauto; try (intros; exfalso; tauto).
  split; [done|]. intros [?|[?|[?|[?|[]]]]]; done.
Qed.

(** X18: with no facet value id the facet-value filter adds nothing but the
    condition that never holds.  With ids, the count it asks for lies
    between 1 and the number of ids, and with exactly one id it builds the
    same query whether [containsAny] is set or not. *)
Theorem facet_value_filter_count :
  forall (qb : QueryBuilder) (ids : list ID) (any : bool),
    (ids = [] ->
     facetValueApply qb (MkFacetValueArgs ids any) = qb ++ [AndWhere "1 = 0"]) /\
    (ids <> [] ->
     1 <= havingCount (MkFacetValueArgs ids any) <= Z.of_nat (length ids) /\
     last (facetValueApply qb (MkFacetValueArgs ids any))
     = Some (Having "COUNT(1) >= :count" (havingCount (MkFacetValueArgs ids any)))) /\
    (length ids = 1%nat ->
     facetValueApply qb (MkFacetValueArgs ids true)
     = facetValueApply qb (MkFacetValueArgs ids false)).
Proof.
  intros qb ids any. split; [|split].
  - by intros ->.
  - intros Hne. destruct ids as [|i ids]; [done|].
    unfold havingCount, facetValueApply; simpl facetValueIds; simpl containsAny.
    split.
    + destruct any; simpl length; lia.
    + rewrite last_app. reflexivity.
  - intros Hlen. destruct ids as [|i [|i' ids]]; try done.
Qed.

End CollectionFilterProperties.

(** ** Splitting and joining *)

Section StringProperties.
Import JsString.

Lemma split_cons (sep c : ascii) (rest : string) :
  exists seg segs,
    split sep rest = seg :: segs /\
    split sep (String c rest)
    = if Ascii.eqb c sep then EmptyString :: seg :: segs else String c seg :: segs.
Proof.
  revert c. induction rest as [|c0 rest IH]; intros c.
  - exists EmptyString, []. by split.
  - destruct (IH c0) as (seg & segs & Hrest & Hsplit).
    destruct (split sep (String c0 rest)) as [|seg' segs'] eqn:Hs.
    + by destruct (Ascii.eqb c0 sep).
    + exists seg', segs'. split; [done|]. simpl. simpl in Hs. by rewrite Hs.
Qed.

Lemma join_split (sep : ascii) (s : string) :
  join "/" (split sep s) = replaceAll sep "/" s.
Proof.
  induction s as [|c rest IH]; [done|].
  destruct (split_cons sep c rest) as (seg & segs & Hrest & ->).
  rewrite Hrest in IH. simpl replaceAll. rewrite <- IH.
  destruct (Ascii.eqb c sep); [done|].
  unfold join; simpl. by destruct segs.
Qed.

Lemma length_split (sep : ascii) (s : string) :
  length (split sep s) = S (occurrences sep s).
Proof.
  induction s as [|c rest IH]; [done|].
  destruct (split_cons sep c rest) as (seg & segs & Hrest & ->).
  rewrite Hrest in IH. simpl occurrences.
  destruct (Ascii.eqb c sep); simpl in *; lia.
Qed.

Lemma split_segments_have_no_separator (sep : ascii) (s : string) :
  Forall (fun seg => occurrences sep seg = 0%nat) (split sep s).
Proof.
  induction s as [|c rest IH]; [by repeat constructor|].
  destruct (split_cons sep c rest) as (seg & segs & Hrest & ->).
  rewrite Hrest in IH. inversion IH as [|? ? Hseg Hsegs]; subst.
  destruct (Ascii.eqb c sep) eqn:Hc.
  - by repeat constructor.
  - constructor; [|done]. simpl. by rewrite Hc.
Qed.

Lemma replaceAll_length (from to : ascii) (s : string) :
  String.length (replaceAll from to s) = String.length s.
Proof. induction s as [|c rest IH]; simpl; congruence. Qed.

Lemma replaceAll_same (c : ascii) (s : string) : replaceAll c c s = s.
Proof.
  induction s as [|c0 rest IH]; [done|]. simpl. rewrite IH.
  by destruct (Ascii.eqb_spec c0 c) as [->|].
Qed.

Lemma replaceAll_removes (from to : ascii) (s : string) :
  from <> to -> occurrences from (replaceAll from to s) = 0%nat.
Proof.
  intros Hne. induction s as [|c rest IH]; [done|]. simpl.
  destruct (Ascii.eqb_spec c from) as [->|Hc].
  - destruct (Ascii.eqb_spec to from); [congruence|done].
  - destruct (Ascii.eqb_spec c from); [congruence|done].
Qed.

Lemma replaceAll_idempotent (from to : ascii) (s : string) :
  replaceAll from to (replaceAll from to s) = replaceAll from to s.
Proof.
  induction s as [|c rest IH]; [done|]. simpl. rewrite IH. f_equal.
  destruct (Ascii.eqb_spec c from) as [->|Hc].
  - by destruct (Ascii.eqb_spec to from) as [->|].
  - by destruct (Ascii.eqb_spec c from).
Qed.

(** X20: normalising the type paths replaces every path separator by a
    forward slash and changes nothing else: there are as many paths as
    before and each is as long as before. *)
Theorem normalized_paths_replace_separators :
  forall (sep : ascii) (typePaths : list string),
    GraphQLConfig.normalizedPaths sep typePaths = replaceAll sep "/" <$> typePaths /\
    length (GraphQLConfig.normalizedPaths sep typePaths) = length typePaths /\
    String.length <$> GraphQLConfig.normalizedPaths sep typePaths
    = String.length <$> typePaths.
Proof.
  intros sep typePaths. unfold GraphQLConfig.normalizedPaths.
  assert ((fun p => join "/" (split sep p)) <$> typePaths
          = replaceAll sep "/" <$> typePaths) as ->.
  { apply list_fmap_ext. intros _ p _. apply join_split. }
  split; [done|]. split; [by rewrite length_fmap|].
  rewrite <- list_fmap_compose. apply list_fmap_ext.
  intros _ p _. apply replaceAll_length.
Qed.

(** X21: where the path separator is the forward slash the type paths come
    out unchanged; where it is another character none of it is left in any
    path; and normalising twice is the same as normalising once. *)
Theorem normalized_paths_are_stable :
  forall (sep : ascii) (typePaths : list string),
    (sep = "/"%char -> GraphQLConfig.normalizedPaths sep typePaths = typePaths) /\
    (sep <> "/"%char ->
     Forall (fun p => occurrences sep p = 0%nat)
       (GraphQLConfig.normalizedPaths sep typePaths)) /\
    GraphQLConfig.normalizedPaths sep (GraphQLConfig.normalizedPaths sep typePaths)
    = GraphQLConfig.normalizedPaths sep typePaths.
Proof.
  intros sep typePaths. unfold GraphQLConfig.normalizedPaths.
  assert (forall ps : list string,
            (fun p => join "/" (split sep p)) <$> ps
            = replaceAll sep "/" <$> ps) as Hnorm.
  { intros ps. apply list_fmap_ext. intros _ p _. apply join_split. }
  rewrite !Hnorm. split; [|split].
  - intros ->. rewrite <- (list_fmap_id typePaths) at 2.
    apply list_fmap_ext. intros _ p _. apply replaceAll_same.
  - intros Hne. apply Forall_fmap, Forall_forall. intros p _.
    by apply replaceAll_removes.
  - rewrite <- list_fmap_compose. apply list_fmap_ext.
    intros _ p _. apply replaceAll_idempotent.
Qed.

End StringProperties.

(** ** The option group dialog *)

Section TrimProperties.
Import JsString.

Lemma trimStart_starts (s : string) : startsWithWhiteSpace (trimStart s) = false.
Proof.
  induction s as [|c rest IH]; [done|]. simpl.
  destruct (isWhiteSpace c) eqn:Hc; [done|]. simpl. done.
Qed.

Lemma trimEnd_starts (s : string) :
  startsWithWhiteSpace s = false -> startsWithWhiteSpace (trimEnd s) = false.
Proof.
  destruct s as [|c rest]; [done|]. simpl. intros Hc.
  destruct (trimEnd rest); [by rewrite Hc|done].
Qed.

Lemma trimEnd_ends (s : string) : endsWithWhiteSpace (trimEnd s) = false.
Proof.
  induction s as [|c rest IH]; [done|]. simpl.
  destruct (trimEnd rest) as [|d kept] eqn:Hrest.
  - destruct (isWhiteSpace c) eqn:Hc; [done|]. simpl. done.
  - done.
Qed.

Lemma trimStart_occurrences (c : ascii) (s : string) :
  (occurrences c (trimStart s) <= occurrences c s)%nat.
Proof.
  induction s as [|c0 rest IH]; [done|]. simpl.
  destruct (isWhiteSpace c0); simpl; destruct (Ascii.eqb c0 c); lia.
Qed.

Lemma trimEnd_occurrences (c : ascii) (s : string) :
  (occurrences c (trimEnd s) <= occurrences c s)%nat.
Proof.
  induction s as [|c0 rest IH]; [done|]. simpl.
  destruct (trimEnd rest) as [|d kept].
  - destruct (isWhiteSpace c0); simpl; destruct (Ascii.eqb c0 c); simpl in *; lia.
  - simpl in *. destruct (Ascii.eqb c0 c); lia.
Qed.

Lemma trim_no_white_space_around (s : string) :
  startsWithWhiteSpace (trim s) = false /\ endsWithWhiteSpace (trim s) = false.
Proof.
  unfold trim. split; [|apply trimEnd_ends].
  apply trimEnd_starts, trimStart_starts.
Qed.

Lemma trim_occurrences (c : ascii) (s : string) :
  (occurrences c (trim s) <= occurrences c s)%nat.
Proof.
  unfold trim. etrans; [apply trimEnd_occurrences|apply trimStart_occurrences].
Qed.

End TrimProperties.

Section DialogProperties.
Import JsString CreateOptionGroupDialog.
Variable normalizeString : string -> string -> string.
Variable getDefaultLanguage : string.

(** X22: the options field yields one option per line, blank lines
    included: as many options as the text has line feeds, plus one.  An
    empty field therefore still yields one option, with an empty name. *)
Theorem one_option_per_line :
  forall rawOptions : string,
    length (createGroupOptions normalizeString getDefaultLanguage rawOptions)
    = S (occurrences "010" rawOptions) /\
    createGroupOptions normalizeString getDefaultLanguage ""
    = [{| code := normalizeString "" "-";
          translations := [{| languageCode := getDefaultLanguage; name := "" |}] |}].
Proof.
  intros rawOptions. split; [|done].
  unfold createGroupOptions. by rewrite !length_fmap, length_split.
Qed.

(** X23: every option made from the options field has exactly one
    translation, in the default language; its name has no white space at
    either end and no line feed inside, and its code is [normalizeString] of
    that name with a hyphen. *)
Theorem option_names_are_trimmed_lines :
  forall (rawOptions : string) (option : CreateProductOptionInput),
    option ∈ createGroupOptions normalizeString getDefaultLanguage rawOptions ->
    exists optionName,
      translations option
      = [{| languageCode := getDefaultLanguage; name := optionName |}] /\
      code option = normalizeString optionName "-" /\
      startsWithWhiteSpace optionName = false /\
      endsWithWhiteSpace optionName = false /\
      occurrences "010" optionName = 0%nat.
Proof.
  intros rawOptions option Hin. unfold createGroupOptions in Hin.
  apply list_elem_of_fmap in Hin as (optionName & -> & Hin).
  apply list_elem_of_fmap in Hin as (line & -> & Hin).
  exists (trim line). split; [done|]. split; [done|].
  destruct (trim_no_white_space_around line) as [Hstart Hend].
  split; [done|]. split; [done|].
  pose proof (split_segments_have_no_separator "010" rawOptions) as Hsegs.
  rewrite Forall_forall in Hsegs. specialize (Hsegs line Hin).
  pose proof (trim_occurrences "010" line). lia.
Qed.

(** X24: [updateCode] never touches a code the user has edited and does
    nothing without a code control; while the code is pristine only the
    last name typed counts, and the control stays pristine. *)
Theorem updateCode_respects_edits :
  forall (productName : string) (control : CodeControl) (first second : string),
    (pristine control = false ->
     updateCode normalizeString productName (Some control) first = Some control) /\
    updateCode normalizeString productName None first = None /\
    updateCode normalizeString productName
      (updateCode normalizeString productName (Some control) first) second
    = updateCode normalizeString productName (Some control) second /\
    (pristine <$> updateCode normalizeString productName (Some control) first)
    = Some (pristine control).
Proof.
  intros productName [value [|]] first second; simpl; by repeat split.
Qed.

End DialogProperties.

(** ** The further statements at work on sample data *)

Section MoreSamples.
Import MoreExamples.

Example info_line :
  DefaultLogger.info levels plain show (DefaultLogger.new levels None) "12:00"
    (DefaultLogger.Text "hello") None
  = ["info 12:00 - [Vendure Server] hello " +:+ DefaultLogger.newline].
Proof. reflexivity. Qed.

Example error_line_without_timestamp :
  DefaultLogger.error levels plain show
    (DefaultLogger.withLevel
       (DefaultLogger.new levels (Some (DefaultLogger.MkLoggerOptions None (Some false)))) 3)
    "12:00" (DefaultLogger.Structured 5) (Some "ExceptionsHandler") (Some "at x")
  = ["error  [ExceptionsHandler] {}" +:+ DefaultLogger.newline +:+ "at x "
     +:+ DefaultLogger.newline].
Proof. reflexivity. Qed.

Example windows_paths :
  GraphQLConfig.normalizedPaths "\" ["src\api\schema"; "plain"; ""]
  = ["src/api/schema"; "plain"; ""].
Proof. reflexivity. Qed.

Example split_keeps_empty_segments :
  JsString.split "/" "/a//b/" = [""; "a"; ""; "b"; ""].
Proof. reflexivity. Qed.

Example three_lines_four_options :
  CreateOptionGroupDialog.name
  <$> (CreateOptionGroupDialog.createGroupOptions hyphenate "en"
         (" Extra Small " +:+ DefaultLogger.newline +:+ "Large"
          +:+ DefaultLogger.newline +:+ DefaultLogger.newline)
       ≫= CreateOptionGroupDialog.translations)
  = ["Extra Small"; "Large"; ""; ""].
Proof. reflexivity. Qed.

Example unknown_operator :
  CollectionFilters.variantNameApply []
    (CollectionFilters.MkVariantNameArgs "like" "x")
  = ([CollectionFilters.LeftJoin "productVariant.translations" "translation"],
     Throw (MkError "like is not a valid operator")).
Proof. reflexivity. Qed.

End MoreSamples.

(** With the queue down the run ends at its first call. *)
Lemma runPendingSearchUpdates_stops_when_collection_flush_fails_witness :
  exec MoreExamples.down
    (runPendingSearchUpdates Examples.inspectable Examples.buffering true) tt
  = MkRun [CallFlush [id collectionJobBuffer]] (Throw (MkError "queue is down")) tt.
Proof.
  apply (runPendingSearchUpdates_stops_when_collection_flush_fails
           Examples.inspectable MoreExamples.down Examples.buffering true tt tt).
  - reflexivity.
  - reflexivity.
Defined.

(** With nothing buffered the run returns after the two flushes. *)
Lemma runPendingSearchUpdates_returns_only_after_both_flushes_witness :
  exists between,
    calls (exec MoreExamples.idle
             (runPendingSearchUpdates Examples.inspectable Examples.buffering true) tt)
    = CallFlush [id collectionJobBuffer] :: between
      ++ [CallFlush [id searchIndexJobBuffer]] /\
    (length between <= 1)%nat.
Proof.
  apply (runPendingSearchUpdates_returns_only_after_both_flushes
           Examples.inspectable MoreExamples.idle Examples.buffering true tt).
  - reflexivity.
  - reflexivity.
Defined.

(** A tax-rate event in the default zone: the reindex runs under the
    event's context. *)
Lemma calls_keep_the_context_of_their_event_witness :
  EventContext.ofCall (Reindex Examples.english) = Examples.english /\
  Reindex Examples.english = Reindex Examples.english.
Proof.
  apply (calls_keep_the_context_of_their_event Examples.sameId (Ok tt) (Ok tt)
           (TaxRateModified (MkTaxRateEvent Examples.english (Examples.rateIn 7)))
           (Reindex Examples.english)).
  reflexivity.
Defined.

(** A warning written at Warn is written at Debug. *)
Lemma raising_the_level_keeps_every_message_witness :
  DefaultLogger.warn MoreExamples.levels MoreExamples.plain MoreExamples.show
    (DefaultLogger.withLevel (DefaultLogger.new MoreExamples.levels None) 4)
    "12:00" (DefaultLogger.Text "disk almost full") None
  = DefaultLogger.warn MoreExamples.levels MoreExamples.plain MoreExamples.show
      (DefaultLogger.withLevel (DefaultLogger.new MoreExamples.levels None) 1)
      "12:00" (DefaultLogger.Text "disk almost full") None.
Proof.
  refine (proj1 (proj2 (raising_the_level_keeps_every_message
                          MoreExamples.levels MoreExamples.plain MoreExamples.show
                          (DefaultLogger.new MoreExamples.levels None) 1 4
                          "12:00" (DefaultLogger.Text "disk almost full") None None _)) _).
  - vm_compute. discriminate.
  - discriminate.
Defined.

(** With the levels 0 to 4 the default logger drops verbose messages. *)
Lemma default_logger_logs_at_info_witness :
  DefaultLogger.verbose MoreExamples.levels MoreExamples.plain MoreExamples.show
    (DefaultLogger.new MoreExamples.levels None) "12:00"
    (DefaultLogger.Text "details") None
  = [].
Proof.
  refine (proj1 (proj2 (proj2 (proj2 (proj2
            (default_logger_logs_at_info
               MoreExamples.levels MoreExamples.plain MoreExamples.show
               "12:00" (DefaultLogger.Text "details") None None _ _ _ _)))))).
  - vm_compute. discriminate.
  - vm_compute. discriminate.
  - reflexivity.
  - vm_compute. discriminate.
Defined.

Lemma hide_then_restore_keeps_the_logger_witness :
  DefaultLogger.logger
    (DefaultLogger.restoreOriginalLogLevel
       (DefaultLogger.hideNestBoostrapLogs MoreExamples.levels MoreExamples.fresh))
  = DefaultLogger.logger MoreExamples.fresh.
Proof.
  apply (hide_then_restore_keeps_the_logger MoreExamples.levels MoreExamples.fresh).
  reflexivity.
Defined.

Lemma hidden_bootstrap_logs_witness :
  exists lg',
    DefaultLogger.logger
      (DefaultLogger.hideNestBoostrapLogs MoreExamples.levels
         (DefaultLogger.MkStatics
            (DefaultLogger.IsDefaultLogger (DefaultLogger.new MoreExamples.levels None))
            None))
    = DefaultLogger.IsDefaultLogger lg' /\
    DefaultLogger.info MoreExamples.levels MoreExamples.plain MoreExamples.show
      lg' "12:00" (DefaultLogger.Text "Nest started") None = [] /\
    DefaultLogger.warn MoreExamples.levels MoreExamples.plain MoreExamples.show
      lg' "12:00" (DefaultLogger.Text "Nest started") None <> [].
Proof.
  apply (hidden_bootstrap_logs MoreExamples.levels MoreExamples.plain MoreExamples.show
           (DefaultLogger.new MoreExamples.levels None) None).
  - reflexivity.
  - reflexivity.
Defined.

(** The user asks for Debug after the first cycle and gets Info back after
    the second. *)
Lemma second_restore_resets_the_level_to_info_witness :
  DefaultLogger.activeLevel
    (DefaultLogger.restoreOriginalLogLevel
       (DefaultLogger.hideNestBoostrapLogs MoreExamples.levels
          (DefaultLogger.setLevel
             (DefaultLogger.restoreOriginalLogLevel
                (DefaultLogger.hideNestBoostrapLogs MoreExamples.levels MoreExamples.fresh))
             4)))
  = Some 2.
Proof.
  refine (proj2 (second_restore_resets_the_level_to_info MoreExamples.levels
                   (DefaultLogger.new MoreExamples.levels None) 4 _ _)).
  - reflexivity.
  - discriminate.
Defined.

Lemma resolvers_tell_errors_from_success_witness :
  exists success,
    GraphQLErrors.resolveType "Order"
      (GraphQLErrors.newError GraphQLErrors.InsufficientStockError)
    = Ok (Some "InsufficientStockError") /\
    GraphQLErrors.resolveType "Order" (GraphQLErrors.Other (Some "Order"))
    = Ok (Some success) /\
    GraphQLErrors.resolveType "Order" GraphQLErrors.Nullish
    = Throw GraphQLErrors.typeError.
Proof.
  destruct (resolvers_tell_errors_from_success "UpdateOrderItemsResult"
              (GraphQLErrors.resolveType "Order"))
    as (success & _ & _ & Hclass & _ & Hother & _ & Hnull).
  - apply elem_of_cons. left. reflexivity.
  - exists success. split; [|split].
    + exact (proj1 (Hclass GraphQLErrors.InsufficientStockError)).
    + apply Hother. vm_compute. reflexivity.
    + exact Hnull.
Defined.

Lemma option_names_are_trimmed_lines_witness :
  exists optionName,
    [{| CreateOptionGroupDialog.languageCode := "en";
        CreateOptionGroupDialog.name := "Extra Small" |}]
    = [{| CreateOptionGroupDialog.languageCode := "en";
          CreateOptionGroupDialog.name := optionName |}] /\
    "Extra-Small" = MoreExamples.hyphenate optionName "-" /\
    JsString.startsWithWhiteSpace optionName = false /\
    JsString.endsWithWhiteSpace optionName = false /\
    JsString.occurrences "010" optionName = 0%nat.
Proof.
  apply (option_names_are_trimmed_lines MoreExamples.hyphenate "en"
           (" Extra Small " +:+ DefaultLogger.newline +:+ "Large")
           {| CreateOptionGroupDialog.code := "Extra-Small";
              CreateOptionGroupDialog.translations :=
                [{| CreateOptionGroupDialog.languageCode := "en";
                    CreateOptionGroupDialog.name := "Extra Small" |}] |}).
  apply elem_of_cons. left. reflexivity.
Defined.

(** ** A batch that does not describe one tree *)

Section MovedCollection.
Import CollectionJobBuffer.

(** With one job per collection id, a list cannot have the job of [a]
    before the job of [b] and also the job of [b] before the job of [a]: a
    batch that holds both a request placing [b] under [a] and one placing
    [a] under [b] cannot be served at all. *)
Lemma one_job_per_collection_has_one_order (out l1 l2 l3 k1 k2 k3 : list Job)
    (p c c' p' : Job) :
  NoDup (collectionIdOf <$> out) ->
  out = l1 ++ p :: l2 ++ c :: l3 ->
  out = k1 ++ c' :: k2 ++ p' :: k3 ->
  collectionIdOf p = collectionIdOf p' ->
  collectionIdOf c = collectionIdOf c' ->
  False.
Proof.
  intros Hnd Hout1 Hout2 Hp Hc.
  assert (forall i j x y, out !! i = Some x -> out !! j = Some y ->
            collectionIdOf x = collectionIdOf y -> i = j) as Hsame.
  { intros i j x y Hi Hj Hxy.
    apply (NoDup_lookup _ i j (collectionIdOf x) Hnd).
    - by rewrite list_lookup_fmap, Hi.
    - by rewrite list_lookup_fmap, Hj, Hxy. }
  assert (out !! length l1 = Some p) as Hip.
  { rewrite Hout1. by apply list_lookup_middle. }
  assert (out !! (length l1 + S (length l2))%nat = Some c) as Hic.
  { rewrite Hout1. rewrite lookup_app_r by lia.
    replace (length l1 + S (length l2) - length l1)%nat with (S (length l2)) by lia.
    simpl. by apply list_lookup_middle. }
  assert (out !! length k1 = Some c') as Hic'.
  { rewrite Hout2. by apply list_lookup_middle. }
  assert (out !! (length k1 + S (length k2))%nat = Some p') as Hip'.
  { rewrite Hout2. rewrite lookup_app_r by lia.
    replace (length k1 + S (length k2) - length k1)%nat with (S (length k2)) by lia.
    simpl. by apply list_lookup_middle. }
  pose proof (Hsame _ _ _ _ Hip Hip' Hp).
  pose proof (Hsame _ _ _ _ Hic Hic' Hc).
  lia.
Qed.

End MovedCollection.

